(** * The sequence ADT of Sequence.cpp: a shallow embedding and its properties

    The class [sequence] (namespace CS3358_FA2017) keeps its items in a
    dynamic array [data] of [capacity] cells, of which the first [used]
    hold the items, together with a cursor [current_index].

    Modelling choices.
    - [value_type] is declared in Sequence.h; the code only copies items,
      so the model is parametric in the item type.
    - [size_type] is declared in Sequence.h as well; see [size_type] below.
    - The expression [size_type (1.25 * capacity) + 1] is modelled with exact
      rational arithmetic followed by truncation.
    - The dynamic array is a list with exactly [capacity] cells.  A cell a
      [new value_type[n]] leaves uninitialised holds the arbitrary item
      [junk].
    - An access at an index outside the array is undefined behaviour in
      C++, and the code makes no check.  A write outside the array goes to
      memory that is no cell of the array and the function runs on: the
      model records the write in the [strays] of the run, leaves the array
      as it is and continues (what the write does to the memory next to the
      array is not modelled).  A read outside the array has no value that
      the object determines: the model stops there with [OutOfBounds].  No
      member function reads outside the array on a state that satisfies the
      class invariant.
    - A failed [assert] stops the program: [AssertFail].
    - Allocation always succeeds.
    - Every write [a[i] = v] is recorded, in order, in the [writes] of a
      run, whether or not it lands inside the array; those that do not are
      recorded in its [strays] as well. *)

From Stdlib Require Import ZArith QArith Qround Lia.
From stdpp Require Import base list.

Local Open Scope Z_scope.

(** Modelled from the spec: [size_type] is declared in Sequence.h, which is
    not among the sources.  The spec (section 3) describes [used], [cursor]
    and [cap] as counts with [0 <= cursor <= used <= cap], so the counters
    are mathematical integers here.  On a state that satisfies the class
    invariant every counter is between 0 and the length of the array, the
    decrement [used-1] of [remove_current] comes after [assert(is_item())]
    and the decrements of the loops after their guards, so no subtraction
    of the code goes below 0 there. *)
Abbreviation size_type := Z.

(** ** Runs: results, failures and the logs of array writes *)

Inductive outcome (A : Type) : Type :=
| Done (a : A)
| AssertFail
| OutOfBounds (index : size_type).

Arguments Done {A} a.
Arguments AssertFail {A}.
Arguments OutOfBounds {A} index.

Record run (A : Type) : Type := Run {
  writes : list size_type;
  strays : list size_type;
  result : outcome A
}.

Arguments Run {A} writes strays result.
Arguments writes {A} r.
Arguments strays {A} r.
Arguments result {A} r.

Definition ret {A} (a : A) : run A := Run [] [] (Done a).

Definition raise {A} (o : outcome A) : run A := Run [] [] o.

Definition bind {A B} (m : run A) (f : A -> run B) : run B :=
  match result m with
  | Done a =>
      Run (writes m ++ writes (f a)) (strays m ++ strays (f a))
          (result (f a))
  | AssertFail => Run (writes m) (strays m) AssertFail
  | OutOfBounds i => Run (writes m) (strays m) (OutOfBounds i)
  end.

Notation "'let*' x ':=' m 'in' k" := (bind m (fun x => k))
  (at level 10, x name, m at level 100, k at level 200).

(** [assert(b)] *)
Definition assert (b : bool) : run unit :=
  if b then ret tt else raise AssertFail.

Section Seq.

Variable value_type : Type.
Variable junk : value_type.

(** ** The dynamic array *)

Local Abbreviation array := (list value_type).

(** [new value_type[n]] *)
Definition new_array (n : size_type) : array := replicate (Z.to_nat n) junk.

Definition in_bounds (a : array) (i : size_type) : bool :=
  (0 <=? i) && (i <? Z.of_nat (length a)).

(** reading [a[i]] *)
Definition load (a : array) (i : size_type) : run value_type :=
  if in_bounds a i then
    match a !! Z.to_nat i with
    | Some v => ret v
    | None => raise (OutOfBounds i)
    end
  else raise (OutOfBounds i).

(** [a[i] = v] *)
Definition store (a : array) (i : size_type) (v : value_type) : run array :=
  if in_bounds a i then Run [i] [] (Done (<[Z.to_nat i := v]> a))
  else Run [i] [i] (Done a).

(** [for (index = 0; index < used; ++index) dst[index] = src[index];]
    (both constructors' copy, [resize] and [operator=]).  The fuel is the
    number of iterations the guard allows. *)
Fixpoint copy_loop (fuel : nat) (index used : size_type) (src dst : array)
  : run array :=
  match fuel with
  | O => ret dst
  | S fuel' =>
      if index <? used then
        let* v := load src index in
        let* dst' := store dst index v in
        copy_loop fuel' (index + 1) used src dst'
      else ret dst
  end.

Definition copy_items (used : size_type) (src dst : array) : run array :=
  copy_loop (Z.to_nat used) 0 used src dst.

(** [for (index = start; index > current_index; --index)
       data[index] = data[index-1];]
    (the loop of [insert], twice, and of [attach]). *)
Fixpoint shift_up_loop (fuel : nat) (index current_index : size_type)
                       (a : array)
  : run array :=
  match fuel with
  | O => ret a
  | S fuel' =>
      if index >? current_index then
        let* v := load a (index - 1) in
        let* a' := store a index v in
        shift_up_loop fuel' (index - 1) current_index a'
      else ret a
  end.

Definition shift_up (start current_index : size_type) (a : array)
  : run array :=
  shift_up_loop (Z.to_nat (start - current_index)) start current_index a.

(** [for (index = current_index; index < used-1; ++index)
       data[index] = data[index + 1];]
    (the loop of [remove_current]; [bound] is [used-1]). *)
Fixpoint shift_down_loop (fuel : nat) (index bound : size_type) (a : array)
  : run array :=
  match fuel with
  | O => ret a
  | S fuel' =>
      if index <? bound then
        let* v := load a (index + 1) in
        let* a' := store a index v in
        shift_down_loop fuel' (index + 1) bound a'
      else ret a
  end.

Definition shift_down (start bound : size_type) (a : array) : run array :=
  shift_down_loop (Z.to_nat (bound - start)) start bound a.

(** ** The class *)

Record sequence : Type := Sequence {
  data : array;
  used : size_type;
  current_index : size_type;
  capacity : size_type
}.

(** [sequence::sequence(size_type initial_capacity)] *)
Definition construct (initial_capacity : size_type) : sequence :=
  let capacity := if initial_capacity <? 1 then 1 else initial_capacity in
  {| data := new_array capacity; used := 0; current_index := 0;
     capacity := capacity |}.

(** [sequence::sequence(const sequence& source)] *)
Definition copy_construct (source : sequence) : run sequence :=
  let* d := copy_items (used source) (data source)
                       (new_array (capacity source)) in
  ret {| data := d; used := used source;
         current_index := current_index source;
         capacity := capacity source |}.

(** [sequence::resize] *)
Definition resize (s : sequence) (new_capacity : size_type) : run sequence :=
  let new_capacity := if new_capacity <? 1 then 1 else new_capacity in
  let capacity' := if new_capacity <? used s then used s else new_capacity in
  let* temp_data := copy_items (used s) (data s) (new_array capacity') in
  ret {| data := temp_data; used := used s;
         current_index := current_index s; capacity := capacity' |}.

(** [sequence::start] *)
Definition start (s : sequence) : sequence :=
  {| data := data s; used := used s; current_index := 0;
     capacity := capacity s |}.

(** [sequence::is_item] *)
Definition is_item (s : sequence) : bool :=
  negb (current_index s =? used s).

(** [sequence::size] *)
Definition size (s : sequence) : size_type := used s.

(** [sequence::current] *)
Definition current (s : sequence) : run value_type :=
  let* _ := assert (is_item s) in
  load (data s) (current_index s).

(** [sequence::advance] *)
Definition advance (s : sequence) : run sequence :=
  let* _ := assert (is_item s) in
  ret {| data := data s; used := used s;
         current_index := current_index s + 1; capacity := capacity s |}.

(** [size_type (1.25 * capacity) + 1] *)
Definition growth (capacity : size_type) : size_type :=
  Qfloor (Qmult (125 # 100) (inject_Z capacity)) + 1.

(** [if (used == capacity) { resize(size_type (1.25 * capacity) + 1); }],
    the first statement of [insert] and of [attach]. *)
Definition grow_if_full (s : sequence) : run sequence :=
  if used s =? capacity s then resize s (growth (capacity s)) else ret s.

(** [sequence::insert] *)
Definition insert (s : sequence) (entry : value_type) : run sequence :=
  let* s := grow_if_full s in
  if negb (is_item s) then
    let current_index := 0 in
    let* d := shift_up (used s + 1) current_index (data s) in
    let* d := store d current_index entry in
    ret {| data := d; used := used s + 1; current_index := current_index;
           capacity := capacity s |}
  else
    let* d := shift_up (used s + 1) (current_index s) (data s) in
    let* d := store d (current_index s) entry in
    ret {| data := d; used := used s + 1;
           current_index := current_index s; capacity := capacity s |}.

(** [sequence::attach] *)
Definition attach (s : sequence) (entry : value_type) : run sequence :=
  let* s := grow_if_full s in
  if negb (is_item s) then
    let* d := store (data s) (current_index s) entry in
    ret {| data := d; used := used s + 1;
           current_index := current_index s; capacity := capacity s |}
  else
    let current_index := current_index s + 1 in
    let* d := shift_up (used s + 1) current_index (data s) in
    let* d := store d current_index entry in
    ret {| data := d; used := used s + 1; current_index := current_index;
           capacity := capacity s |}.

(** [sequence::remove_current] *)
Definition remove_current (s : sequence) : run sequence :=
  let* _ := assert (is_item s) in
  let* d := shift_down (current_index s) (used s - 1) (data s) in
  ret {| data := d; used := used s - 1;
         current_index := current_index s; capacity := capacity s |}.

(** The right-hand side of an assignment: the object itself
    ([this == &source]) or another object. *)
Inductive operand : Type :=
| Self
| Other (source : sequence).

(** [sequence::operator=] *)
Definition assign (s : sequence) (rhs : operand) : run sequence :=
  match rhs with
  | Self => ret s
  | Other source =>
      let* temp_data := copy_items (used source) (data source)
                                   (new_array (capacity source)) in
      ret {| data := temp_data; used := used source;
             current_index := current_index source;
             capacity := capacity source |}
  end.

End Seq.

Arguments new_array {value_type} junk n.
Arguments in_bounds {value_type} a i.
Arguments load {value_type} a i.
Arguments store {value_type} a i v.
Arguments copy_loop {value_type} fuel index used src dst.
Arguments copy_items {value_type} used src dst.
Arguments shift_up_loop {value_type} fuel index current_index a.
Arguments shift_up {value_type} start current_index a.
Arguments shift_down_loop {value_type} fuel index bound a.
Arguments shift_down {value_type} start bound a.
Arguments Sequence {value_type} data used current_index capacity.
Arguments data {value_type} s.
Arguments used {value_type} s.
Arguments current_index {value_type} s.
Arguments capacity {value_type} s.
Arguments construct {value_type} junk initial_capacity.
Arguments copy_construct {value_type} junk source.
Arguments resize {value_type} junk s new_capacity.
Arguments start {value_type} s.
Arguments is_item {value_type} s.
Arguments size {value_type} s.
Arguments current {value_type} s.
Arguments advance {value_type} s.
Arguments grow_if_full {value_type} junk s.
Arguments insert {value_type} junk s entry.
Arguments attach {value_type} junk s entry.
Arguments remove_current {value_type} s.
Arguments Self {value_type}.
Arguments Other {value_type} source.
Arguments assign {value_type} junk s rhs.

(** ** The abstract view of an object, its invariant and its clients *)

Section Views.

Context {V : Type}.

(** The items of the sequence: [data[0]] through [data[used-1]]
    (invariant 2 of the class). *)
Definition items (s : sequence V) : list V :=
  take (Z.to_nat (used s)) (data s).

(** The invariant of the class: [used] items in an array of [capacity]
    cells, never an empty array, and [current_index] either the index of an
    item or [used]. *)
Definition rep_ok (s : sequence V) : Prop :=
  0 <= current_index s <= used s /\
  used s <= capacity s /\
  1 <= capacity s /\
  Z.of_nat (length (data s)) = capacity s.

(** The capacity once the first statement of [insert] and [attach] has
    run. *)
Definition grown_capacity (s : sequence V) : size_type :=
  if used s =? capacity s then growth (capacity s) else capacity s.

(** The index at which [insert] places the new item. *)
Definition insert_index (s : sequence V) : size_type :=
  if is_item s then current_index s else 0.

(** The index at which [attach] places the new item. *)
Definition attach_index (s : sequence V) : size_type :=
  if is_item s then current_index s + 1 else used s.

(** A client that reads the current item and advances, [n] times:
    [for (; n > 0; --n) { visited.push_back(s.current()); s.advance(); }] *)
Fixpoint visit (n : nat) (s : sequence V) : run (list V * sequence V) :=
  match n with
  | O => ret ([], s)
  | S n' =>
      let* v := current s in
      let* s' := advance s in
      let* r := visit n' s' in
      ret (v :: fst r, snd r)
  end.

(** [s.start()] followed by [used] rounds of [current()] and [advance()]. *)
Definition traverse (s : sequence V) : run (list V * sequence V) :=
  visit (Z.to_nat (used s)) (start s).

Variable junk : V.

(** The states an object can be in: those a constructor makes and those a
    public member function that returns leaves behind. *)
Inductive reachable : sequence V -> Prop :=
| reach_construct n :
    reachable (construct junk n)
| reach_copy_construct source s' :
    reachable source -> result (copy_construct junk source) = Done s' ->
    reachable s'
| reach_resize s n s' :
    reachable s -> result (resize junk s n) = Done s' -> reachable s'
| reach_start s :
    reachable s -> reachable (start s)
| reach_advance s s' :
    reachable s -> result (advance s) = Done s' -> reachable s'
| reach_insert s x s' :
    reachable s -> result (insert junk s x) = Done s' -> reachable s'
| reach_attach s x s' :
    reachable s -> result (attach junk s x) = Done s' -> reachable s'
| reach_remove_current s s' :
    reachable s -> result (remove_current s) = Done s' -> reachable s'
| reach_assign_self s s' :
    reachable s -> result (assign junk s Self) = Done s' -> reachable s'
| reach_assign s source s' :
    reachable s -> reachable source ->
    result (assign junk s (Other source)) = Done s' -> reachable s'.

End Views.

Arguments reachable {V} junk s.

(** ** Sample objects, with integer items and [0] in the cells that were
    never written *)

(** [sequence s(1);] *)
Definition fresh_1 : sequence Z := construct 0 1.

(** [sequence s(2); s.insert(5);] *)
Definition one_of_2 : sequence Z := Sequence [5; 0] 1 0 2.

(** [sequence s(1); s.attach(7);] *)
Definition full_1 : sequence Z := Sequence [7] 1 0 1.

(** [sequence s(4); s.attach(5); s.attach(9); s.insert(7);] *)
Definition three_of_4 : sequence Z := Sequence [5; 7; 9; 0] 3 1 4.

(** [sequence s(4); s.attach(5); s.attach(7); s.attach(9); s.advance();
     s.attach(11);] *)
Definition full_4 : sequence Z := Sequence [5; 7; 9; 11] 4 3 4.

(** [sequence s(4); s.attach(5); s.attach(9);] *)
Definition two_of_4 : sequence Z := Sequence [5; 9; 0; 0] 2 1 4.

(** ** More clients *)

Section Clients.

Context {V : Type}.

(** [for (x : xs) s.attach(x);] *)
Fixpoint attach_all (junk : V) (s : sequence V) (xs : list V)
  : run (sequence V) :=
  match xs with
  | [] => ret s
  | x :: xs' =>
      let* s' := attach junk s x in
      attach_all junk s' xs'
  end.

(** [for (; n > 0; --n) s.remove_current();] *)
Fixpoint remove_n (n : nat) (s : sequence V) : run (sequence V) :=
  match n with
  | O => ret s
  | S n' =>
      let* s' := remove_current s in
      remove_n n' s'
  end.

End Clients.

(** ** Facts about runs *)

Lemma result_bind {A B} (m : run A) (f : A -> run B) :
  result (bind m f) =
  match result m with
  | Done a => result (f a)
  | AssertFail => AssertFail
  | OutOfBounds i => OutOfBounds i
  end.
Proof. unfold bind. destruct (result m); reflexivity. Qed.

Lemma result_bind_Done {A B} (m : run A) (f : A -> run B) a :
  result m = Done a -> result (bind m f) = result (f a).
Proof. intros H. rewrite result_bind, H. reflexivity. Qed.

Lemma writes_bind_Done {A B} (m : run A) (f : A -> run B) a :
  result m = Done a -> writes (bind m f) = writes m ++ writes (f a).
Proof. intros H. unfold bind. rewrite H. reflexivity. Qed.

Lemma strays_bind_Done {A B} (m : run A) (f : A -> run B) a :
  result m = Done a -> strays (bind m f) = strays m ++ strays (f a).
Proof. intros H. unfold bind. rewrite H. reflexivity. Qed.

Lemma writes_bind_prefix {A B} (m : run A) (f : A -> run B) :
  exists ws, writes (bind m f) = writes m ++ ws.
Proof.
  unfold bind. destruct (result m); simpl; eauto.
  all: exists []; rewrite app_nil_r; reflexivity.
Qed.

Lemma result_bind_OutOfBounds {A B} (m : run A) (f : A -> run B) i :
  result m = OutOfBounds i -> result (bind m f) = OutOfBounds i.
Proof. intros H. rewrite result_bind, H. reflexivity. Qed.

Lemma bind_ext {A B} (m : run A) (f g : A -> run B) :
  (forall a, f a = g a) -> bind m f = bind m g.
Proof. intros H. unfold bind. destruct (result m); rewrite ?H; reflexivity. Qed.

Lemma bind_ret_l {A B} (a : A) (f : A -> run B) : bind (ret a) f = f a.
Proof. unfold bind. simpl. destruct (f a). reflexivity. Qed.

Lemma bind_Done_inv {A B} (m : run A) (f : A -> run B) b :
  result (bind m f) = Done b ->
  exists a, result m = Done a /\ result (f a) = Done b.
Proof.
  rewrite result_bind. destruct (result m) as [a| |i]; try discriminate.
  intros H. exists a. split; [reflexivity | exact H].
Qed.

(** ** Facts about the array *)

Section ArrayFacts.

Context {V : Type}.
Implicit Types (a src dst : list V) (v : V).

Lemma in_bounds_spec a i :
  in_bounds a i = true <-> 0 <= i < Z.of_nat (length a).
Proof. unfold in_bounds. rewrite andb_true_iff. lia. Qed.

Lemma in_bounds_nat a (i : nat) :
  (i < length a)%nat -> in_bounds a (Z.of_nat i) = true.
Proof. intros H. apply in_bounds_spec. lia. Qed.

Lemma load_nat a (i : nat) v :
  a !! i = Some v -> load a (Z.of_nat i) = ret v.
Proof.
  intros H. unfold load.
  rewrite in_bounds_nat by (apply lookup_lt_is_Some; eauto).
  rewrite Nat2Z.id, H. reflexivity.
Qed.

Lemma store_nat a (i : nat) v :
  (i < length a)%nat ->
  store a (Z.of_nat i) v = Run [Z.of_nat i] [] (Done (<[i := v]> a)).
Proof.
  intros H. unfold store. rewrite in_bounds_nat by exact H.
  rewrite Nat2Z.id. reflexivity.
Qed.

Lemma store_outside a i v :
  Z.of_nat (length a) <= i -> store a i v = Run [i] [i] (Done a).
Proof.
  intros H. unfold store.
  destruct (in_bounds a i) eqn:E; [| reflexivity].
  apply in_bounds_spec in E. lia.
Qed.

Lemma load_not_AssertFail a i : result (load a i) <> AssertFail.
Proof.
  unfold load.
  destruct (in_bounds a i); [destruct (a !! Z.to_nat i)|]; discriminate.
Qed.

Lemma store_not_AssertFail a i v : result (store a i v) <> AssertFail.
Proof. unfold store. destruct (in_bounds a i); discriminate. Qed.

(** The loop of [remove_current] has no [assert]. *)
Lemma shift_down_loop_not_AssertFail : forall (n : nat) i b a,
  result (shift_down_loop n i b a) <> AssertFail.
Proof.
  induction n as [|n IH]; intros i b a; simpl; [discriminate|].
  destruct (i <? b); [|discriminate].
  rewrite result_bind.
  pose proof (load_not_AssertFail a (i + 1)) as Hl.
  destruct (result (load a (i + 1))) as [v| |j]; [|contradiction|discriminate].
  rewrite result_bind.
  pose proof (store_not_AssertFail a i v) as Hs.
  destruct (result (store a i v)) as [a'| |j]; [|contradiction|discriminate].
  apply IH.
Qed.

Lemma take_S_insert a (i : nat) v :
  (i < length a)%nat -> take (S i) (<[i := v]> a) = take i a ++ [v].
Proof.
  intros H.
  rewrite (take_S_r _ _ v) by (apply list_lookup_insert_eq; exact H).
  rewrite take_insert_ge by lia. reflexivity.
Qed.

(** The copy loop fills cells [i .. i+n-1] of [dst] from [src]. *)
Lemma copy_loop_result src : forall (n i : nat) dst,
  (i + n <= length src)%nat -> (i + n <= length dst)%nat ->
  result (copy_loop n (Z.of_nat i) (Z.of_nat (i + n)) src dst)
  = Done (take i dst ++ take n (drop i src) ++ drop (i + n) dst).
Proof.
  induction n as [|n IH]; intros i dst Hs Hd; simpl.
  - rewrite Nat.add_0_r, take_drop. reflexivity.
  - replace (Z.of_nat i <? Z.of_nat (i + S n)) with true
      by (symmetry; apply Z.ltb_lt; lia).
    destruct (lookup_lt_is_Some_2 src i) as [v Hv]; [lia|].
    rewrite (load_nat _ _ _ Hv).
    rewrite (result_bind_Done _ _ v) by reflexivity.
    rewrite store_nat by lia.
    rewrite (result_bind_Done _ _ (<[i := v]> dst)) by reflexivity.
    replace (Z.of_nat i + 1) with (Z.of_nat (S i)) by lia.
    replace (i + S n)%nat with (S i + n)%nat by lia.
    rewrite IH by (rewrite ?length_insert; lia).
    rewrite take_S_insert by lia.
    rewrite drop_insert_lt by lia.
    rewrite (drop_S src v i Hv). simpl.
    rewrite <- app_assoc. reflexivity.
Qed.

Lemma copy_items_result (u : nat) src dst :
  (u <= length src)%nat -> (u <= length dst)%nat ->
  result (copy_items (Z.of_nat u) src dst) = Done (take u src ++ drop u dst).
Proof.
  intros Hs Hd. unfold copy_items. rewrite Nat2Z.id.
  pose proof (copy_loop_result src u 0 dst) as H.
  change (Z.of_nat 0) with 0 in H. rewrite Nat.add_0_l in H.
  rewrite H by lia. rewrite take_0. rewrite drop_0. reflexivity.
Qed.

(** The loop of [insert] and [attach] moves cells [c .. c+n-1] one cell up:
    all its accesses are inside the array when [c + n] is. *)
Lemma shift_up_loop_result : forall (n c : nat) a,
  (c + n < length a)%nat ->
  result (shift_up_loop n (Z.of_nat (c + n)) (Z.of_nat c) a)
  = Done (take (S c) a ++ take n (drop c a) ++ drop (S (c + n)) a).
Proof.
  induction n as [|n IH]; intros c a Hlen; simpl.
  - rewrite Nat.add_0_r, take_drop. reflexivity.
  - replace (Z.of_nat (c + S n) >? Z.of_nat c) with true
      by (symmetry; apply Z.gtb_lt; lia).
    replace (Z.of_nat (c + S n) - 1) with (Z.of_nat (c + n)) by lia.
    destruct (lookup_lt_is_Some_2 a (c + n)) as [v Hv]; [lia|].
    rewrite (load_nat _ _ _ Hv).
    rewrite (result_bind_Done _ _ v) by reflexivity.
    rewrite store_nat by lia.
    rewrite (result_bind_Done _ _ (<[(c + S n)%nat := v]> a)) by reflexivity.
    rewrite IH by (rewrite length_insert; lia).
    rewrite take_insert_ge by lia.
    rewrite (drop_insert_ge _ c) by lia.
    rewrite take_insert_ge by lia.
    replace (S (c + n)) with (c + S n)%nat by lia.
    rewrite (drop_S _ v (c + S n)) by (apply list_lookup_insert_eq; lia).
    rewrite drop_insert_lt by lia.
    rewrite (take_S_r (drop c a) n v) by (rewrite lookup_drop; exact Hv).
    rewrite <- !app_assoc. reflexivity.
Qed.

Lemma shift_up_result (top c : nat) a :
  (c <= top)%nat -> (top < length a)%nat ->
  result (shift_up (Z.of_nat top) (Z.of_nat c) a)
  = Done (take (S c) a ++ take (top - c) (drop c a) ++ drop (S top) a).
Proof.
  intros Hc Ht. unfold shift_up.
  replace (Z.to_nat (Z.of_nat top - Z.of_nat c)) with (top - c)%nat by lia.
  pose proof (shift_up_loop_result (top - c) c a) as H.
  replace (c + (top - c))%nat with top in H by lia.
  apply H. exact Ht.
Qed.

(** Started above the cursor, the loop runs at least once, and its first
    write is at the index it starts from. *)
Lemma shift_up_first_write (top c : nat) a :
  (c < top)%nat -> (top <= length a)%nat ->
  exists ws, writes (shift_up (Z.of_nat top) (Z.of_nat c) a)
             = Z.of_nat top :: ws.
Proof.
  intros Hc Ht. unfold shift_up.
  replace (Z.to_nat (Z.of_nat top - Z.of_nat c)) with (S (top - c - 1)) by lia.
  simpl.
  replace (Z.of_nat top >? Z.of_nat c) with true
    by (symmetry; apply Z.gtb_lt; lia).
  replace (Z.of_nat top - 1) with (Z.of_nat (top - 1)) by lia.
  destruct (lookup_lt_is_Some_2 a (top - 1)) as [v Hv]; [lia|].
  rewrite (load_nat _ _ _ Hv).
  rewrite (writes_bind_Done _ _ v) by reflexivity. simpl.
  unfold store at 1. destruct (in_bounds a (Z.of_nat top)).
  - unfold bind at 1. simpl. eauto.
  - unfold bind at 1. simpl. eauto.
Qed.

(** Started at the length of the array, the loop first writes outside the
    array, then moves cells [c .. length-2] one cell up, inside it: the
    last cell is overwritten by its neighbour. *)
Lemma shift_up_result_tight (u c : nat) a :
  (c <= u)%nat -> S u = length a ->
  result (shift_up (Z.of_nat u + 1) (Z.of_nat c) a)
  = Done (take (S c) a ++ take (u - c) (drop c a)).
Proof.
  intros Hc Hu. unfold shift_up.
  replace (Z.to_nat (Z.of_nat u + 1 - Z.of_nat c)) with (S (u - c)) by lia.
  simpl.
  replace (Z.of_nat u + 1 >? Z.of_nat c) with true
    by (symmetry; apply Z.gtb_lt; lia).
  replace (Z.of_nat u + 1 - 1) with (Z.of_nat u) by lia.
  destruct (lookup_lt_is_Some_2 a u) as [v Hv]; [lia|].
  rewrite (load_nat _ _ _ Hv), bind_ret_l.
  rewrite store_outside by lia.
  rewrite (result_bind_Done _ _ a) by reflexivity.
  pose proof (shift_up_loop_result (u - c) c a) as H.
  replace (c + (u - c))%nat with u in H by lia.
  rewrite H by lia.
  rewrite (drop_ge a (S u)) by lia. rewrite app_nil_r. reflexivity.
Qed.

(** The stray writes of the three loops: none while the loop stays inside
    the array, one when the loop of [insert] and [attach] starts at the
    length of the array. *)
Lemma copy_loop_strays src : forall (n i : nat) dst,
  (i + n <= length src)%nat -> (i + n <= length dst)%nat ->
  strays (copy_loop n (Z.of_nat i) (Z.of_nat (i + n)) src dst) = [].
Proof.
  induction n as [|n IH]; intros i dst Hs Hd; simpl; [reflexivity|].
  replace (Z.of_nat i <? Z.of_nat (i + S n)) with true
    by (symmetry; apply Z.ltb_lt; lia).
  destruct (lookup_lt_is_Some_2 src i) as [v Hv]; [lia|].
  rewrite (load_nat _ _ _ Hv), bind_ret_l.
  rewrite store_nat by lia.
  rewrite (strays_bind_Done _ _ (<[i := v]> dst)) by reflexivity.
  cbn [strays app].
  replace (Z.of_nat i + 1) with (Z.of_nat (S i)) by lia.
  replace (i + S n)%nat with (S i + n)%nat by lia.
  apply IH; rewrite ?length_insert; lia.
Qed.

Lemma copy_items_strays (u : nat) src dst :
  (u <= length src)%nat -> (u <= length dst)%nat ->
  strays (copy_items (Z.of_nat u) src dst) = [].
Proof.
  intros Hs Hd. unfold copy_items. rewrite Nat2Z.id.
  pose proof (copy_loop_strays src u 0 dst) as H.
  change (Z.of_nat 0) with 0 in H. rewrite Nat.add_0_l in H.
  apply H; lia.
Qed.

Lemma shift_up_loop_strays : forall (n c : nat) a,
  (c + n < length a)%nat ->
  strays (shift_up_loop n (Z.of_nat (c + n)) (Z.of_nat c) a) = [].
Proof.
  induction n as [|n IH]; intros c a Hlen; simpl; [reflexivity|].
  replace (Z.of_nat (c + S n) >? Z.of_nat c) with true
    by (symmetry; apply Z.gtb_lt; lia).
  replace (Z.of_nat (c + S n) - 1) with (Z.of_nat (c + n)) by lia.
  destruct (lookup_lt_is_Some_2 a (c + n)) as [v Hv]; [lia|].
  rewrite (load_nat _ _ _ Hv), bind_ret_l.
  rewrite store_nat by lia.
  rewrite (strays_bind_Done _ _ (<[(c + S n)%nat := v]> a)) by reflexivity.
  cbn [strays app].
  apply IH. rewrite length_insert. lia.
Qed.

Lemma shift_up_strays (top c : nat) a :
  (c <= top)%nat -> (top < length a)%nat ->
  strays (shift_up (Z.of_nat top) (Z.of_nat c) a) = [].
Proof.
  intros Hc Ht. unfold shift_up.
  replace (Z.to_nat (Z.of_nat top - Z.of_nat c)) with (top - c)%nat by lia.
  pose proof (shift_up_loop_strays (top - c) c a) as H.
  replace (c + (top - c))%nat with top in H by lia.
  apply H. exact Ht.
Qed.

Lemma shift_up_strays_tight (u c : nat) a :
  (c <= u)%nat -> S u = length a ->
  strays (shift_up (Z.of_nat u + 1) (Z.of_nat c) a) = [Z.of_nat u + 1].
Proof.
  intros Hc Hu. unfold shift_up.
  replace (Z.to_nat (Z.of_nat u + 1 - Z.of_nat c)) with (S (u - c)) by lia.
  simpl.
  replace (Z.of_nat u + 1 >? Z.of_nat c) with true
    by (symmetry; apply Z.gtb_lt; lia).
  replace (Z.of_nat u + 1 - 1) with (Z.of_nat u) by lia.
  destruct (lookup_lt_is_Some_2 a u) as [v Hv]; [lia|].
  rewrite (load_nat _ _ _ Hv), bind_ret_l.
  rewrite store_outside by lia.
  rewrite (strays_bind_Done _ _ a) by reflexivity.
  cbn [strays].
  pose proof (shift_up_loop_strays (u - c) c a) as H.
  replace (c + (u - c))%nat with u in H by lia.
  rewrite H by lia. reflexivity.
Qed.

Lemma shift_down_loop_strays : forall (n c : nat) a,
  (c + n < length a)%nat ->
  strays (shift_down_loop n (Z.of_nat c) (Z.of_nat (c + n)) a) = [].
Proof.
  induction n as [|n IH]; intros c a Hlen; simpl; [reflexivity|].
  replace (Z.of_nat c <? Z.of_nat (c + S n)) with true
    by (symmetry; apply Z.ltb_lt; lia).
  replace (Z.of_nat c + 1) with (Z.of_nat (S c)) by lia.
  destruct (lookup_lt_is_Some_2 a (S c)) as [v Hv]; [lia|].
  rewrite (load_nat _ _ _ Hv), bind_ret_l.
  rewrite store_nat by lia.
  rewrite (strays_bind_Done _ _ (<[c := v]> a)) by reflexivity.
  cbn [strays app].
  replace (c + S n)%nat with (S c + n)%nat by lia.
  apply IH. rewrite length_insert. lia.
Qed.

Lemma shift_down_strays (c b : nat) a :
  (c <= b)%nat -> (b < length a)%nat ->
  strays (shift_down (Z.of_nat c) (Z.of_nat b) a) = [].
Proof.
  intros Hc Hb. unfold shift_down.
  replace (Z.to_nat (Z.of_nat b - Z.of_nat c)) with (b - c)%nat by lia.
  pose proof (shift_down_loop_strays (b - c) c a) as H.
  replace (c + (b - c))%nat with b in H by lia.
  apply H. exact Hb.
Qed.

(** The loop of [remove_current] moves cells [c+1 .. c+n] one cell down. *)
Lemma shift_down_loop_result : forall (n c : nat) a,
  (c + n < length a)%nat ->
  result (shift_down_loop n (Z.of_nat c) (Z.of_nat (c + n)) a)
  = Done (take c a ++ take n (drop (S c) a) ++ drop (c + n) a).
Proof.
  induction n as [|n IH]; intros c a Hlen; simpl.
  - rewrite Nat.add_0_r, take_drop. reflexivity.
  - replace (Z.of_nat c <? Z.of_nat (c + S n)) with true
      by (symmetry; apply Z.ltb_lt; lia).
    replace (Z.of_nat c + 1) with (Z.of_nat (S c)) by lia.
    destruct (lookup_lt_is_Some_2 a (S c)) as [v Hv]; [lia|].
    rewrite (load_nat _ _ _ Hv).
    rewrite (result_bind_Done _ _ v) by reflexivity.
    rewrite store_nat by lia.
    rewrite (result_bind_Done _ _ (<[c := v]> a)) by reflexivity.
    replace (c + S n)%nat with (S c + n)%nat by lia.
    rewrite IH by (rewrite length_insert; lia).
    rewrite take_S_insert by lia.
    rewrite !drop_insert_lt by lia.
    rewrite (drop_S a v (S c) Hv). simpl.
    rewrite <- app_assoc. reflexivity.
Qed.

Lemma shift_down_result (c b : nat) a :
  (c <= b)%nat -> (b < length a)%nat ->
  result (shift_down (Z.of_nat c) (Z.of_nat b) a)
  = Done (take c a ++ take (b - c) (drop (S c) a) ++ drop b a).
Proof.
  intros Hc Hb. unfold shift_down.
  replace (Z.to_nat (Z.of_nat b - Z.of_nat c)) with (b - c)%nat by lia.
  pose proof (shift_down_loop_result (b - c) c a) as H.
  replace (c + (b - c))%nat with b in H by lia.
  apply H. exact Hb.
Qed.

(** The fuel of the three loops is never what stops them: with the fuel
    the class gives them they run until their guard is false, and more fuel
    changes nothing. *)
Lemma copy_loop_fuel src : forall (n extra : nat) index used dst,
  n = Z.to_nat (used - index) ->
  copy_loop (n + extra) index used src dst = copy_loop n index used src dst.
Proof.
  induction n as [|n IH]; intros extra index used dst Hn; simpl.
  - destruct extra; simpl; [reflexivity|].
    replace (index <? used) with false
      by (symmetry; apply Z.ltb_ge; lia). reflexivity.
  - destruct (index <? used); [|reflexivity].
    apply bind_ext. intros v. apply bind_ext. intros dst'.
    apply IH. lia.
Qed.

Lemma shift_up_loop_fuel : forall (n extra : nat) index current_index a,
  n = Z.to_nat (index - current_index) ->
  shift_up_loop (n + extra) index current_index a
  = shift_up_loop n index current_index a.
Proof.
  induction n as [|n IH]; intros extra index current_index a Hn; simpl.
  - destruct extra; simpl; [reflexivity|].
    replace (index >? current_index) with false
      by (symmetry; rewrite Z.gtb_ltb; apply Z.ltb_ge; lia). reflexivity.
  - destruct (index >? current_index); [|reflexivity].
    apply bind_ext. intros v. apply bind_ext. intros a'.
    apply IH. lia.
Qed.

Lemma shift_down_loop_fuel : forall (n extra : nat) index bound a,
  n = Z.to_nat (bound - index) ->
  shift_down_loop (n + extra) index bound a = shift_down_loop n index bound a.
Proof.
  induction n as [|n IH]; intros extra index bound a Hn; simpl.
  - destruct extra; simpl; [reflexivity|].
    replace (index <? bound) with false
      by (symmetry; apply Z.ltb_ge; lia). reflexivity.
  - destruct (index <? bound); [|reflexivity].
    apply bind_ext. intros v. apply bind_ext. intros a'.
    apply IH. lia.
Qed.

End ArrayFacts.

(** ** The items after a shift *)

Section ItemsFacts.

Context {V : Type}.
Implicit Types (a : list V) (x : V).

Lemma insert_take_S a (t : nat) x :
  (t < length a)%nat -> <[t := x]> (take (S t) a) = take t a ++ [x].
Proof.
  intros H. rewrite <- take_insert_lt by lia. apply take_S_insert. exact H.
Qed.

(** Opening a slot at [t] and filling it with [x]: the first [u+1] cells. *)
Lemma items_after_open_slot a (u t : nat) x :
  (t <= u)%nat -> (S u < length a)%nat ->
  take (S u)
    (<[t := x]> (take (S t) a ++ take (S u - t) (drop t a) ++ drop (S (S u)) a))
  = take t (take u a) ++ x :: drop t (take u a).
Proof.
  intros Ht Hu.
  rewrite insert_app_l by (rewrite length_take; lia).
  rewrite insert_take_S by lia.
  rewrite take_app, take_ge by (rewrite length_app, length_take; simpl; lia).
  rewrite length_app, length_take. simpl.
  rewrite take_app_le by (rewrite length_take, length_drop; lia).
  rewrite take_take, take_take.
  replace (t `min` u)%nat with t by lia.
  replace ((S u - (t `min` length a + 1)) `min` (S u - t))%nat
    with (u - t)%nat by lia.
  rewrite <- app_assoc. simpl.
  rewrite (take_drop_commute a (u - t) t).
  replace (t + (u - t))%nat with u by lia. reflexivity.
Qed.

(** The same when the array has exactly [u+1] cells. *)
Lemma items_after_open_slot_tight a (u t : nat) x :
  (t <= u)%nat -> S u = length a ->
  take (S u) (<[t := x]> (take (S t) a ++ take (u - t) (drop t a)))
  = take t (take u a) ++ x :: drop t (take u a).
Proof.
  intros Ht Hu.
  rewrite insert_app_l by (rewrite length_take; lia).
  rewrite insert_take_S by lia.
  rewrite take_ge
    by (rewrite !length_app, !length_take, length_drop; simpl; lia).
  rewrite take_take. replace (t `min` u)%nat with t by lia.
  rewrite <- app_assoc. simpl.
  rewrite (take_drop_commute a (u - t) t).
  replace (t + (u - t))%nat with u by lia. reflexivity.
Qed.

(** Closing the slot at [c]: the first [u] cells, of [S u] items. *)
Lemma items_after_close_slot a (u c : nat) :
  (c <= u)%nat -> (u < length a)%nat ->
  take u (take c a ++ take (u - c) (drop (S c) a) ++ drop u a)
  = take c (take (S u) a) ++ drop (S c) (take (S u) a).
Proof.
  intros Hc Hu.
  rewrite app_assoc.
  rewrite take_app_length'
    by (rewrite length_app, !length_take, length_drop; lia).
  rewrite take_take. replace (c `min` S u)%nat with c by lia.
  rewrite (take_drop_commute a (u - c) (S c)).
  replace (S c + (u - c))%nat with (S u) by lia. reflexivity.
Qed.

End ItemsFacts.

(** ** The member functions on states that satisfy the invariant *)

Section ClassFacts.

Context {V : Type} (junk : V).
Implicit Types (s g : sequence V) (x : V).

Lemma rep_ok_nat s :
  rep_ok s ->
  exists u c : nat,
    used s = Z.of_nat u /\ current_index s = Z.of_nat c /\
    (c <= u)%nat /\ (u <= length (data s))%nat /\
    (1 <= length (data s))%nat /\
    capacity s = Z.of_nat (length (data s)).
Proof.
  intros (Hc & Hu & Hk & Hlen).
  exists (Z.to_nat (used s)), (Z.to_nat (current_index s)).
  repeat split; lia.
Qed.

Lemma growth_eq k : growth k = 5 * k / 4 + 1.
Proof.
  unfold growth. f_equal.
  unfold Qfloor, Qmult, inject_Z. simpl Qnum. simpl Qden.
  change (Z.pos (100 * 1)) with (25 * 4).
  replace (125 * k) with (25 * (5 * k)) by lia.
  apply Z.div_mul_cancel_l; lia.
Qed.

Lemma growth_gt k : 0 <= k -> k < growth k.
Proof.
  intros H. rewrite growth_eq.
  pose proof (Z.div_le_lower_bound (5 * k) 4 k). lia.
Qed.

Lemma length_new_array n : length (new_array junk n) = Z.to_nat n.
Proof. unfold new_array. apply length_replicate. Qed.

Lemma is_item_true s : is_item s = true <-> current_index s <> used s.
Proof. unfold is_item. rewrite negb_true_iff, Z.eqb_neq. reflexivity. Qed.

Lemma is_item_false s : is_item s = false <-> current_index s = used s.
Proof. unfold is_item. rewrite negb_false_iff, Z.eqb_eq. reflexivity. Qed.

(** [resize] always returns; it keeps the items and the cursor, and the new
    capacity is the request raised to at least 1 and at least [used]. *)
Lemma length_open_slot (a : list V) (u t : nat) x :
  (t <= u)%nat -> (S u < length a)%nat ->
  length (<[t := x]> (take (S t) a ++ take (S u - t) (drop t a)
                        ++ drop (S (S u)) a)) = length a.
Proof.
  intros Ht Hu.
  rewrite length_insert, !length_app, !length_take, !length_drop. lia.
Qed.

(** The shift and the store of [insert] and [attach], with room for the
    shift: item [x] ends up at index [t], the cells from [t] on one cell
    higher. *)
Lemma open_slot_Done {B} (a : list V) (u t : nat) x (f : list V -> run B) :
  (t <= u)%nat -> (S u < length a)%nat ->
  result (let* d := shift_up (Z.of_nat u + 1) (Z.of_nat t) a in
          let* d := store d (Z.of_nat t) x in f d)
  = result (f (<[t := x]> (take (S t) a ++ take (S u - t) (drop t a)
                             ++ drop (S (S u)) a))).
Proof.
  intros Ht Hu.
  replace (Z.of_nat u + 1) with (Z.of_nat (S u)) by lia.
  rewrite (result_bind_Done _ _ _ (shift_up_result (S u) t a ltac:(lia) Hu)).
  rewrite store_nat by (rewrite !length_app, !length_take, !length_drop; lia).
  apply result_bind_Done. reflexivity.
Qed.

Lemma length_open_slot_tight (a : list V) (u t : nat) x :
  (t <= u)%nat -> S u = length a ->
  length (<[t := x]> (take (S t) a ++ take (u - t) (drop t a))) = length a.
Proof.
  intros Ht Hu.
  rewrite length_insert, !length_app, !length_take, !length_drop. lia.
Qed.

(** The same without room: the first write of the shift, at [used + 1],
    is outside the array; the rest of the shift and the store are inside
    it. *)
Lemma open_slot_Done_tight {B} (a : list V) (u t : nat) x
      (f : list V -> run B) :
  (t <= u)%nat -> S u = length a ->
  result (let* d := shift_up (Z.of_nat u + 1) (Z.of_nat t) a in
          let* d := store d (Z.of_nat t) x in f d)
  = result (f (<[t := x]> (take (S t) a ++ take (u - t) (drop t a)))).
Proof.
  intros Ht Hu.
  rewrite (result_bind_Done _ _ _ (shift_up_result_tight u t a Ht Hu)).
  rewrite store_nat by (rewrite !length_app, !length_take, !length_drop; lia).
  apply result_bind_Done. reflexivity.
Qed.

(** The stray writes of the shift and the store. *)
Lemma open_slot_strays {B} (a : list V) (u t : nat) x (f : list V -> run B) :
  (t <= u)%nat -> (S u < length a)%nat ->
  strays (let* d := shift_up (Z.of_nat u + 1) (Z.of_nat t) a in
          let* d := store d (Z.of_nat t) x in f d)
  = strays (f (<[t := x]> (take (S t) a ++ take (S u - t) (drop t a)
                             ++ drop (S (S u)) a))).
Proof.
  intros Ht Hu.
  replace (Z.of_nat u + 1) with (Z.of_nat (S u)) by lia.
  rewrite (strays_bind_Done _ _ _
             (shift_up_result (S u) t a ltac:(lia) Hu)).
  rewrite shift_up_strays by lia.
  rewrite store_nat by (rewrite !length_app, !length_take, !length_drop; lia).
  erewrite strays_bind_Done by reflexivity. reflexivity.
Qed.

Lemma open_slot_strays_tight {B} (a : list V) (u t : nat) x
      (f : list V -> run B) :
  (t <= u)%nat -> S u = length a ->
  strays (let* d := shift_up (Z.of_nat u + 1) (Z.of_nat t) a in
          let* d := store d (Z.of_nat t) x in f d)
  = (Z.of_nat u + 1)
    :: strays (f (<[t := x]> (take (S t) a ++ take (u - t) (drop t a)))).
Proof.
  intros Ht Hu.
  rewrite (strays_bind_Done _ _ _ (shift_up_result_tight u t a Ht Hu)).
  rewrite shift_up_strays_tight by lia.
  rewrite store_nat by (rewrite !length_app, !length_take, !length_drop; lia).
  erewrite strays_bind_Done by reflexivity. reflexivity.
Qed.

Lemma open_slot_writes {B} (a : list V) (u t : nat) x (f : list V -> run B) :
  (t <= u)%nat -> (S u <= length a)%nat ->
  exists ws,
    writes (let* d := shift_up (Z.of_nat u + 1) (Z.of_nat t) a in
            let* d := store d (Z.of_nat t) x in f d)
    = (Z.of_nat u + 1) :: ws.
Proof.
  intros Ht Hu.
  replace (Z.of_nat u + 1) with (Z.of_nat (S u)) by lia.
  destruct (shift_up_first_write (S u) t a ltac:(lia) Hu) as [ws1 H1].
  match goal with |- context [writes (bind ?m ?k)] =>
    destruct (writes_bind_prefix m k) as [ws2 H2] end.
  rewrite H2, H1. simpl. eauto.
Qed.

Lemma resize_Done s n :
  rep_ok s ->
  exists s', result (resize junk s n) = Done s' /\ rep_ok s' /\
    items s' = items s /\ used s' = used s /\
    current_index s' = current_index s /\
    capacity s' = Z.max (used s) (Z.max 1 n).
Proof.
  intros Hok.
  destruct (rep_ok_nat s Hok) as (u & c & Hu & Hc & Hcu & Hul & Hl & Hk).
  unfold resize.
  set (k' := if (if n <? 1 then 1 else n) <? used s then used s
             else if n <? 1 then 1 else n).
  assert (Hk' : k' = Z.max (used s) (Z.max 1 n)).
  { subst k'. destruct (Z.ltb_spec n 1);
      match goal with |- context [?a <? ?b] => destruct (Z.ltb_spec a b) end;
      lia. }
  rewrite Hu.
  assert (Hcopy := copy_items_result u (data s) (new_array junk k')).
  rewrite length_new_array in Hcopy.
  eexists. split.
  { rewrite (result_bind_Done _ _ _ (Hcopy ltac:(lia) ltac:(lia))).
    reflexivity. }
  unfold rep_ok, items. simpl.
  rewrite length_app, length_take, length_drop, length_new_array.
  rewrite Nat2Z.id.
  rewrite take_app_length' by (rewrite length_take; lia).
  clearbody k'. rewrite Hu, Nat2Z.id.
  repeat split; lia.
Qed.

Lemma grown_capacity_gt s : rep_ok s -> used s < grown_capacity s.
Proof.
  intros (Hc & Hu & Hk & Hlen). unfold grown_capacity.
  destruct (Z.eqb_spec (used s) (capacity s)) as [E|E]; [|lia].
  rewrite E. apply growth_gt. lia.
Qed.

(** The first statement of [insert] and [attach] always returns, and leaves
    room for one more item. *)
Lemma grow_if_full_Done s :
  rep_ok s ->
  exists g, result (grow_if_full junk s) = Done g /\ rep_ok g /\
    items g = items s /\ used g = used s /\
    current_index g = current_index s /\
    capacity g = grown_capacity s.
Proof.
  intros Hok. unfold grow_if_full, grown_capacity.
  destruct (Z.eqb_spec (used s) (capacity s)) as [E|E].
  - destruct (resize_Done s (growth (capacity s)) Hok)
      as (g & Hr & Hokg & Hi & Hu & Hc & Hk).
    exists g. repeat split; try assumption; try apply Hokg.
    rewrite Hk. pose proof (growth_gt (capacity s)).
    destruct Hok as (? & ? & ? & ?). lia.
  - exists s. repeat split; try reflexivity; apply Hok.
Qed.

Lemma is_item_grown s g :
  used g = used s -> current_index g = current_index s ->
  is_item g = is_item s.
Proof. intros Hu Hc. unfold is_item. rewrite Hu, Hc. reflexivity. Qed.

(** [insert] with room for its shift. *)
Lemma insert_room s x :
  rep_ok s -> used s + 1 < grown_capacity s ->
  exists s', result (insert junk s x) = Done s' /\ rep_ok s' /\
    items s' = take (Z.to_nat (insert_index s)) (items s)
               ++ x :: drop (Z.to_nat (insert_index s)) (items s) /\
    current_index s' = insert_index s /\
    used s' = used s + 1 /\
    capacity s' = grown_capacity s.
Proof.
  intros Hok Hroom.
  destruct (grow_if_full_Done s Hok) as (g & Hg & Hokg & Hi & Hu & Hc & Hk).
  destruct (rep_ok_nat g Hokg) as (u & c & Hgu & Hgc & Hcu & Hul & Hl & Hgk).
  unfold insert. rewrite (result_bind_Done _ _ _ Hg).
  unfold insert_index.
  rewrite <- (is_item_grown s g Hu Hc), <- Hi, <- Hu, <- Hc, <- Hk.
  unfold items. rewrite Hgu, Hgc, Nat2Z.id.
  destruct (is_item g) eqn:E; cbn [negb].
  - apply is_item_true in E.
    rewrite open_slot_Done by lia.
    eexists. split; [reflexivity|].
    unfold rep_ok. cbn [data used current_index capacity].
    rewrite length_open_slot by lia.
    replace (Z.to_nat (Z.of_nat u + 1)) with (S u) by lia.
    rewrite items_after_open_slot by lia.
    rewrite Nat2Z.id. repeat split; lia.
  - change 0 with (Z.of_nat 0).
    rewrite open_slot_Done by lia.
    eexists. split; [reflexivity|].
    unfold rep_ok. cbn [data used current_index capacity].
    rewrite length_open_slot by lia.
    replace (Z.to_nat (Z.of_nat u + 1)) with (S u) by lia.
    rewrite items_after_open_slot by lia.
    rewrite Nat2Z.id. repeat split; lia.
Qed.

(** [insert] without room for its shift: the shift starts by writing
    [data[used + 1]], one cell past the end of the array, and the call
    goes on to the same result. *)
Lemma insert_tight s x :
  rep_ok s -> used s + 1 = grown_capacity s ->
  exists s', result (insert junk s x) = Done s' /\ rep_ok s' /\
    items s' = take (Z.to_nat (insert_index s)) (items s)
               ++ x :: drop (Z.to_nat (insert_index s)) (items s) /\
    current_index s' = insert_index s /\
    used s' = used s + 1 /\
    capacity s' = grown_capacity s.
Proof.
  intros Hok Htight.
  destruct (grow_if_full_Done s Hok) as (g & Hg & Hokg & Hi & Hu & Hc & Hk).
  destruct (rep_ok_nat g Hokg) as (u & c & Hgu & Hgc & Hcu & Hul & Hl & Hgk).
  unfold insert. rewrite (result_bind_Done _ _ _ Hg).
  unfold insert_index.
  rewrite <- (is_item_grown s g Hu Hc), <- Hi, <- Hu, <- Hc, <- Hk.
  unfold items. rewrite Hgu, Hgc, Nat2Z.id.
  destruct (is_item g) eqn:E; cbn [negb].
  - apply is_item_true in E.
    rewrite open_slot_Done_tight by lia.
    eexists. split; [reflexivity|].
    unfold rep_ok. cbn [data used current_index capacity].
    rewrite length_open_slot_tight by lia.
    replace (Z.to_nat (Z.of_nat u + 1)) with (S u) by lia.
    rewrite items_after_open_slot_tight by lia.
    rewrite Nat2Z.id. repeat split; lia.
  - change 0 with (Z.of_nat 0).
    rewrite open_slot_Done_tight by lia.
    eexists. split; [reflexivity|].
    unfold rep_ok. cbn [data used current_index capacity].
    rewrite length_open_slot_tight by lia.
    replace (Z.to_nat (Z.of_nat u + 1)) with (S u) by lia.
    rewrite items_after_open_slot_tight by lia.
    rewrite Nat2Z.id. repeat split; lia.
Qed.

(** [insert] returns on every state that satisfies the invariant. *)
Lemma insert_Done s x :
  rep_ok s ->
  exists s', result (insert junk s x) = Done s' /\ rep_ok s' /\
    items s' = take (Z.to_nat (insert_index s)) (items s)
               ++ x :: drop (Z.to_nat (insert_index s)) (items s) /\
    current_index s' = insert_index s /\
    used s' = used s + 1 /\
    capacity s' = grown_capacity s.
Proof.
  intros Hok. pose proof (grown_capacity_gt s Hok) as Hgt.
  destruct (Z.eq_dec (used s + 1) (grown_capacity s)) as [E|E].
  - apply insert_tight; assumption.
  - apply insert_room; [assumption | lia].
Qed.

(** Every call of [insert] writes [data[used + 1]]. *)
Lemma insert_writes_above_used s x :
  rep_ok s -> used s + 1 ∈ writes (insert junk s x).
Proof.
  intros Hok.
  destruct (grow_if_full_Done s Hok) as (g & Hg & Hokg & Hi & Hu & Hc & Hk).
  destruct (rep_ok_nat g Hokg) as (u & c & Hgu & Hgc & Hcu & Hul & Hl & Hgk).
  pose proof (grown_capacity_gt s Hok) as Hgt.
  unfold insert. rewrite (writes_bind_Done _ _ _ Hg).
  rewrite <- Hu. rewrite Hgu, Hgc.
  apply elem_of_app. right.
  destruct (is_item g) eqn:E; cbn [negb].
  - destruct (open_slot_writes (data g) u c x
                (fun d => ret (Sequence d (Z.of_nat u + 1) (Z.of_nat c)
                                 (capacity g))))
      as [ws Hws]; [lia | lia |].
    rewrite Hws. apply list_elem_of_here.
  - change 0 with (Z.of_nat 0).
    destruct (open_slot_writes (data g) u 0 x
                (fun d => ret (Sequence d (Z.of_nat u + 1) (Z.of_nat 0)
                                 (capacity g))))
      as [ws Hws]; [lia | lia |].
    rewrite Hws. apply list_elem_of_here.
Qed.

(** [attach] when there is no current item, or with room for the shift. *)
Lemma attach_room s x :
  rep_ok s -> (is_item s = true -> used s + 1 < grown_capacity s) ->
  exists s', result (attach junk s x) = Done s' /\ rep_ok s' /\
    items s' = take (Z.to_nat (attach_index s)) (items s)
               ++ x :: drop (Z.to_nat (attach_index s)) (items s) /\
    current_index s' = attach_index s /\
    used s' = used s + 1 /\
    capacity s' = grown_capacity s.
Proof.
  intros Hok Hroom.
  destruct (grow_if_full_Done s Hok) as (g & Hg & Hokg & Hi & Hu & Hc & Hk).
  destruct (rep_ok_nat g Hokg) as (u & c & Hgu & Hgc & Hcu & Hul & Hl & Hgk).
  pose proof (grown_capacity_gt s Hok) as Hgt.
  unfold attach. rewrite (result_bind_Done _ _ _ Hg).
  unfold attach_index.
  rewrite <- (is_item_grown s g Hu Hc) in *.
  rewrite <- Hi, <- Hu, <- Hc, <- Hk in *.
  unfold items. rewrite Hgu, Hgc in *. rewrite Nat2Z.id.
  destruct (is_item g) eqn:E; cbn [negb].
  - apply is_item_true in E. specialize (Hroom eq_refl).
    replace (Z.of_nat c + 1) with (Z.of_nat (S c)) by lia.
    rewrite open_slot_Done by lia.
    eexists. split; [reflexivity|].
    unfold rep_ok. cbn [data used current_index capacity].
    rewrite length_open_slot by lia.
    replace (Z.to_nat (Z.of_nat u + 1)) with (S u) by lia.
    rewrite items_after_open_slot by lia.
    rewrite Nat2Z.id. repeat split; lia.
  - apply is_item_false in E. assert (c = u) as -> by lia.
    rewrite store_nat by lia.
    rewrite (result_bind_Done _ _ (<[u := x]> (data g))) by reflexivity.
    eexists. split; [reflexivity|].
    unfold rep_ok. cbn [data used current_index capacity].
    rewrite length_insert.
    replace (Z.to_nat (Z.of_nat u + 1)) with (S u) by lia.
    rewrite take_S_insert by lia.
    rewrite Nat2Z.id, take_take, Nat.min_id.
    rewrite (drop_ge (take u (data g))) by (rewrite length_take; lia).
    repeat split; lia.
Qed.

(** [attach] after a current item and without room for its shift: the
    shift starts by writing [data[used + 1]], one cell past the end of the
    array, and the call goes on to the same result. *)
Lemma attach_tight s x :
  rep_ok s -> is_item s = true -> used s + 1 = grown_capacity s ->
  exists s', result (attach junk s x) = Done s' /\ rep_ok s' /\
    items s' = take (Z.to_nat (attach_index s)) (items s)
               ++ x :: drop (Z.to_nat (attach_index s)) (items s) /\
    current_index s' = attach_index s /\
    used s' = used s + 1 /\
    capacity s' = grown_capacity s.
Proof.
  intros Hok Hitem Htight.
  destruct (grow_if_full_Done s Hok) as (g & Hg & Hokg & Hi & Hu & Hc & Hk).
  destruct (rep_ok_nat g Hokg) as (u & c & Hgu & Hgc & Hcu & Hul & Hl & Hgk).
  unfold attach. rewrite (result_bind_Done _ _ _ Hg).
  unfold attach_index.
  rewrite (is_item_grown s g Hu Hc), Hitem. cbn [negb].
  apply is_item_true in Hitem.
  rewrite <- Hi, <- Hu, <- Hc, <- Hk in *.
  unfold items. rewrite Hgu, Hgc in *. rewrite Nat2Z.id.
  replace (Z.of_nat c + 1) with (Z.of_nat (S c)) by lia.
  rewrite open_slot_Done_tight by lia.
  eexists. split; [reflexivity|].
  unfold rep_ok. cbn [data used current_index capacity].
  rewrite length_open_slot_tight by lia.
  replace (Z.to_nat (Z.of_nat u + 1)) with (S u) by lia.
  rewrite items_after_open_slot_tight by lia.
  rewrite Nat2Z.id. repeat split; lia.
Qed.

(** [attach] returns on every state that satisfies the invariant. *)
Lemma attach_Done s x :
  rep_ok s ->
  exists s', result (attach junk s x) = Done s' /\ rep_ok s' /\
    items s' = take (Z.to_nat (attach_index s)) (items s)
               ++ x :: drop (Z.to_nat (attach_index s)) (items s) /\
    current_index s' = attach_index s /\
    used s' = used s + 1 /\
    capacity s' = grown_capacity s.
Proof.
  intros Hok. pose proof (grown_capacity_gt s Hok) as Hgt.
  destruct (is_item s) eqn:Hitem.
  - destruct (Z.eq_dec (used s + 1) (grown_capacity s)) as [E|E].
    + apply attach_tight; assumption.
    + apply attach_room; [assumption | intros _; lia].
  - apply attach_room; [assumption | intros H; congruence].
Qed.

(** Every call of [attach] with a current item writes [data[used + 1]]. *)
Lemma attach_writes_above_used s x :
  rep_ok s -> is_item s = true -> used s + 1 ∈ writes (attach junk s x).
Proof.
  intros Hok Hitem.
  destruct (grow_if_full_Done s Hok) as (g & Hg & Hokg & Hi & Hu & Hc & Hk).
  destruct (rep_ok_nat g Hokg) as (u & c & Hgu & Hgc & Hcu & Hul & Hl & Hgk).
  pose proof (grown_capacity_gt s Hok) as Hgt.
  unfold attach. rewrite (writes_bind_Done _ _ _ Hg).
  rewrite (is_item_grown s g Hu Hc), Hitem. cbn [negb].
  apply is_item_true in Hitem.
  rewrite <- Hu, <- Hc in *. rewrite Hgu, Hgc in *.
  apply elem_of_app. right.
  replace (Z.of_nat c + 1) with (Z.of_nat (S c)) by lia.
  destruct (open_slot_writes (data g) u (S c) x
              (fun d => ret (Sequence d (Z.of_nat u + 1) (Z.of_nat (S c))
                               (capacity g))))
    as [ws Hws]; [lia | lia |].
  rewrite Hws. apply list_elem_of_here.
Qed.

(** [remove_current] with a current item. *)
Lemma remove_current_Done s :
  rep_ok s -> is_item s = true ->
  exists s', result (remove_current s) = Done s' /\ rep_ok s' /\
    items s' = take (Z.to_nat (current_index s)) (items s)
               ++ drop (S (Z.to_nat (current_index s))) (items s) /\
    current_index s' = current_index s /\
    used s' = used s - 1 /\
    capacity s' = capacity s.
Proof.
  intros Hok Hitem.
  destruct (rep_ok_nat s Hok) as (u & c & Hu & Hc & Hcu & Hul & Hl & Hk).
  unfold remove_current. rewrite Hitem.
  unfold assert. rewrite bind_ret_l.
  apply is_item_true in Hitem.
  unfold items. rewrite Hu, Hc in *. rewrite !Nat2Z.id.
  destruct u as [|u]; [lia|].
  replace (Z.of_nat (S u) - 1) with (Z.of_nat u) by lia.
  rewrite (result_bind_Done _ _ _
             (shift_down_result c u (data s) ltac:(lia) ltac:(lia))).
  eexists. split; [reflexivity|].
  unfold rep_ok. cbn [data used current_index capacity].
  rewrite !length_app, !length_take, !length_drop.
  rewrite Nat2Z.id.
  rewrite items_after_close_slot by lia.
  repeat split; lia.
Qed.

(** [advance] with a current item. *)
Lemma advance_Done s :
  is_item s = true ->
  advance s = ret (Sequence (data s) (used s) (current_index s + 1)
                     (capacity s)).
Proof.
  intros Hitem. unfold advance. rewrite Hitem.
  unfold assert. rewrite bind_ret_l. reflexivity.
Qed.

(** [current] with a current item. *)
Lemma current_Done s :
  rep_ok s -> is_item s = true ->
  exists v, current s = ret v /\
            items s !! Z.to_nat (current_index s) = Some v.
Proof.
  intros Hok Hitem.
  destruct (rep_ok_nat s Hok) as (u & c & Hu & Hc & Hcu & Hul & Hl & Hk).
  unfold current. rewrite Hitem. unfold assert. rewrite bind_ret_l.
  apply is_item_true in Hitem.
  unfold items. rewrite Hu, Hc in *. rewrite !Nat2Z.id.
  destruct (lookup_lt_is_Some_2 (data s) c) as [v Hv]; [lia|].
  exists v. split.
  - apply load_nat. exact Hv.
  - rewrite lookup_take_lt by lia. exact Hv.
Qed.

(** Without a current item the three guarded functions stop at their
    [assert]. *)
Lemma guarded_AssertFail s :
  is_item s = false ->
  advance s = raise AssertFail /\ current s = raise AssertFail /\
  remove_current s = raise AssertFail.
Proof.
  intros Hitem. unfold advance, current, remove_current.
  rewrite Hitem. repeat split.
Qed.

(** The copy constructor always returns a copy with the same items, cursor
    and capacity. *)
Lemma copy_construct_Done s :
  rep_ok s ->
  exists s', result (copy_construct junk s) = Done s' /\ rep_ok s' /\
    items s' = items s /\ used s' = used s /\
    current_index s' = current_index s /\ capacity s' = capacity s.
Proof.
  intros Hok.
  destruct (rep_ok_nat s Hok) as (u & c & Hu & Hc & Hcu & Hul & Hl & Hk).
  unfold copy_construct. rewrite Hu.
  assert (Hcopy := copy_items_result u (data s) (new_array junk (capacity s))).
  rewrite length_new_array in Hcopy.
  eexists. split.
  { rewrite (result_bind_Done _ _ _ (Hcopy ltac:(lia) ltac:(lia))).
    reflexivity. }
  unfold rep_ok, items. cbn [data used current_index capacity].
  rewrite length_app, length_take, length_drop, length_new_array.
  rewrite Nat2Z.id.
  rewrite take_app_length' by (rewrite length_take; lia).
  rewrite Hu, Nat2Z.id.
  repeat split; lia.
Qed.

(** Assignment from another object does what the copy constructor does. *)
Lemma assign_other s source :
  assign junk s (Other source) = copy_construct junk source.
Proof. reflexivity. Qed.

Lemma rep_ok_construct n : rep_ok (construct junk n).
Proof.
  unfold rep_ok, construct. cbn [data used current_index capacity].
  rewrite length_new_array.
  destruct (Z.ltb_spec n 1); lia.
Qed.

Lemma rep_ok_start s : rep_ok s -> rep_ok (start s).
Proof. unfold rep_ok, start. cbn [data used current_index capacity]. lia. Qed.

Lemma advance_Done_inv s s' :
  result (advance s) = Done s' ->
  is_item s = true /\
  s' = Sequence (data s) (used s) (current_index s + 1) (capacity s).
Proof.
  destruct (is_item s) eqn:E.
  - rewrite (advance_Done s E). cbn. intros [= <-]. split; reflexivity.
  - destruct (guarded_AssertFail s E) as (-> & _). discriminate.
Qed.

Lemma remove_current_Done_inv s s' :
  result (remove_current s) = Done s' -> is_item s = true.
Proof.
  destruct (is_item s) eqn:E; [reflexivity|].
  destruct (guarded_AssertFail s E) as (_ & _ & ->). discriminate.
Qed.

(** What [insert] leaves behind. *)
Lemma insert_Done_inv s x s' :
  rep_ok s -> result (insert junk s x) = Done s' ->
  rep_ok s' /\
  items s' = take (Z.to_nat (insert_index s)) (items s)
             ++ x :: drop (Z.to_nat (insert_index s)) (items s) /\
  current_index s' = insert_index s /\
  used s' = used s + 1 /\
  capacity s' = grown_capacity s.
Proof.
  intros Hok Hdone.
  destruct (insert_Done s x Hok) as (s0 & H0 & Hrest).
  rewrite H0 in Hdone. injection Hdone as <-. exact Hrest.
Qed.

(** What [attach] leaves behind. *)
Lemma attach_Done_inv s x s' :
  rep_ok s -> result (attach junk s x) = Done s' ->
  rep_ok s' /\
  items s' = take (Z.to_nat (attach_index s)) (items s)
             ++ x :: drop (Z.to_nat (attach_index s)) (items s) /\
  current_index s' = attach_index s /\
  used s' = used s + 1 /\
  capacity s' = grown_capacity s.
Proof.
  intros Hok Hdone.
  destruct (attach_Done s x Hok) as (s0 & H0 & Hrest).
  rewrite H0 in Hdone. injection Hdone as <-. exact Hrest.
Qed.

(** Every state an object can be in satisfies the invariant of the class. *)
Lemma reachable_rep_ok s : reachable junk s -> rep_ok s.
Proof.
  induction 1 as [n | src s' _ IH Hr | s n s' _ IH Hr | s _ IH
                 | s s' _ IH Hr | s x s' _ IH Hr | s x s' _ IH Hr
                 | s s' _ IH Hr | s s' _ IH Hr | s src s' _ _ _ IH Hr].
  - apply rep_ok_construct.
  - destruct (copy_construct_Done src IH) as (s0 & H0 & Hok & _).
    rewrite H0 in Hr. injection Hr as <-. exact Hok.
  - destruct (resize_Done s n IH) as (s0 & H0 & Hok & _).
    rewrite H0 in Hr. injection Hr as <-. exact Hok.
  - apply rep_ok_start, IH.
  - apply advance_Done_inv in Hr as (Hitem & ->).
    apply is_item_true in Hitem.
    unfold rep_ok in *. cbn [data used current_index capacity]. lia.
  - apply (insert_Done_inv s x s' IH Hr).
  - apply (attach_Done_inv s x s' IH Hr).
  - pose proof (remove_current_Done_inv s s' Hr) as Hitem.
    destruct (remove_current_Done s IH Hitem) as (s0 & H0 & Hok & _).
    rewrite H0 in Hr. injection Hr as <-. exact Hok.
  - cbn in Hr. injection Hr as <-. exact IH.
  - rewrite assign_other in Hr.
    destruct (copy_construct_Done src IH) as (s0 & H0 & Hok & _).
    rewrite H0 in Hr. injection Hr as <-. exact Hok.
Qed.

Lemma items_start s : items (start s) = items s.
Proof. reflexivity. Qed.

Lemma length_items s : rep_ok s -> length (items s) = Z.to_nat (used s).
Proof.
  intros (Hc & Hu & Hk & Hlen). unfold items. rewrite length_take. lia.
Qed.

(** [n] rounds of [current()] and [advance()] from index [c] read the [n]
    items from [c] on and leave the cursor at [c + n]. *)
Lemma visit_result : forall (n : nat) s (c : nat),
  rep_ok s -> current_index s = Z.of_nat c -> Z.of_nat (c + n) = used s ->
  result (visit n s)
  = Done (take n (drop c (items s)),
          Sequence (data s) (used s) (used s) (capacity s)).
Proof.
  induction n as [|n IH]; intros s c Hok Hc Hu.
  - destruct s as [a u i k]. cbn in *.
    rewrite take_0. repeat f_equal. lia.
  - assert (Hitem : is_item s = true) by (apply is_item_true; lia).
    destruct (current_Done s Hok Hitem) as (v & Hcur & Hv).
    cbn [visit]. rewrite Hcur, bind_ret_l.
    rewrite (advance_Done s Hitem), bind_ret_l.
    set (s1 := Sequence (data s) (used s) (current_index s + 1) (capacity s)).
    assert (Hok1 : rep_ok s1).
    { unfold rep_ok in *. subst s1. cbn [data used current_index capacity].
      lia. }
    rewrite (result_bind_Done _ _ _
               (IH s1 (S c) Hok1 ltac:(subst s1; cbn; lia)
                   ltac:(subst s1; cbn; lia))).
    cbn [result ret fst snd]. subst s1. cbn [data used capacity].
    change (items (Sequence (data s) (used s) (current_index s + 1)
                     (capacity s))) with (items s).
    rewrite Hc, Nat2Z.id in Hv.
    rewrite (drop_S (items s) v c Hv). reflexivity.
Qed.

Lemma insert_index_bounds s :
  rep_ok s -> 0 <= insert_index s <= used s.
Proof.
  intros (Hc & _). unfold insert_index. destruct (is_item s); lia.
Qed.

Lemma attach_index_bounds s :
  rep_ok s -> 0 <= attach_index s <= used s.
Proof.
  intros (Hc & _). unfold attach_index.
  destruct (is_item s) eqn:E; [|lia].
  apply is_item_true in E. lia.
Qed.

(** A state whose items are [take t l ++ x :: drop t l] and whose cursor is
    [t]: the current item is [x], and removing it gives [l] back. *)
Lemma placed_item s' (l : list V) x t :
  rep_ok s' -> 0 <= t <= Z.of_nat (length l) -> current_index s' = t ->
  items s' = take (Z.to_nat t) l ++ x :: drop (Z.to_nat t) l ->
  is_item s' = true /\ current s' = ret x /\
  exists s'', result (remove_current s') = Done s'' /\ rep_ok s'' /\
    items s'' = l /\ used s'' = used s' - 1 /\
    current_index s'' = t /\ capacity s'' = capacity s'.
Proof.
  intros Hok Ht Hc Hi.
  pose proof (length_items s' Hok) as Hlen.
  assert (Hlt : length (take (Z.to_nat t) l) = Z.to_nat t)
    by (rewrite length_take; lia).
  assert (Hu : used s' = Z.of_nat (length l) + 1).
  { destruct Hok as (? & ? & ?).
    rewrite Hi, length_app, Hlt in Hlen. cbn [length] in Hlen.
    rewrite length_drop in Hlen. lia. }
  assert (Hitem : is_item s' = true) by (apply is_item_true; lia).
  split; [exact Hitem|]. split.
  - destruct (current_Done s' Hok Hitem) as (v & Hcur & Hv).
    rewrite Hc, Hi, list_lookup_middle in Hv by (symmetry; exact Hlt).
    injection Hv as <-. exact Hcur.
  - destruct (remove_current_Done s' Hok Hitem)
      as (s'' & Hr & Hok'' & Hi'' & Hc'' & Hu'' & Hk'').
    exists s''. rewrite Hc in Hi'', Hc''.
    repeat split; try assumption; try apply Hok''.
    rewrite Hi'', Hi.
    rewrite take_app_length' by (symmetry; exact Hlt).
    rewrite (cons_middle x), app_assoc.
    rewrite drop_app_length' by (rewrite length_app, Hlt; cbn; lia).
    apply take_drop.
Qed.

(** The items on both sides of a new item keep their order. *)
Lemma placed_lookups (l l' : list V) x (t : nat) :
  (t <= length l)%nat -> l' = take t l ++ x :: drop t l ->
  (forall j, (j < t)%nat -> l' !! j = l !! j) /\
  (forall j, (t <= j)%nat -> l' !! S j = l !! j).
Proof.
  intros Ht ->. split; intros j Hj.
  - rewrite lookup_app_l by (rewrite length_take; lia).
    apply lookup_take_lt. exact Hj.
  - rewrite lookup_app_r by (rewrite length_take; lia).
    rewrite length_take.
    replace (S j - t `min` length l)%nat with (S (j - t)) by lia.
    change ((x :: drop t l) !! S (j - t)) with (drop t l !! (j - t)%nat).
    rewrite lookup_drop. f_equal. lia.
Qed.

End ClassFacts.

(** ** The properties of the class *)

Section Properties.

Context {V : Type} (junk : V).
Implicit Types (s : sequence V) (x : V).

(** C2.  Every state that an object reaches from a constructor through
    [resize], [start], [advance], [insert], [attach], [remove_current],
    copy construction and assignment satisfies [0 <= used <= capacity],
    [capacity >= 1] and [0 <= current_index <= used]. *)
Theorem reachable_invariant s :
  reachable junk s ->
  0 <= used s <= capacity s /\ capacity s >= 1 /\
  0 <= current_index s <= used s.
Proof.
  intros Hr. destruct (reachable_rep_ok junk s Hr) as (Hc & Hu & Hk & _).
  lia.
Qed.

(** C3.  On every state that satisfies the invariant [insert] returns.
    The new item stands right before the item that was current (at
    position 0 when there was none): the items before that position and
    those from it on keep their order, the latter one position higher.  The
    new item is the current one, so that [current()] returns it, and
    [size()] is one more than before. *)
Theorem insert_spec s x :
  rep_ok s ->
  exists s', result (insert junk s x) = Done s' /\
    rep_ok s' /\
    size s' = size s + 1 /\
    (is_item s = true -> current_index s' = current_index s) /\
    (is_item s = false -> current_index s' = 0) /\
    is_item s' = true /\
    current s' = ret x /\
    items s' = take (Z.to_nat (current_index s')) (items s)
               ++ x :: drop (Z.to_nat (current_index s')) (items s) /\
    (forall j, (j < Z.to_nat (current_index s'))%nat ->
               items s' !! j = items s !! j) /\
    (forall j, (Z.to_nat (current_index s') <= j)%nat ->
               items s' !! S j = items s !! j).
Proof.
  intros Hok.
  pose proof (insert_index_bounds s Hok) as Hb.
  pose proof (length_items s Hok) as Hlen.
  destruct (insert_Done junk s x Hok) as (s' & Hr & Hok' & Hi & Hc & Hu & Hk).
  destruct (placed_item s' (items s) x (insert_index s) Hok'
              ltac:(lia) Hc Hi) as (Hitem & Hcur & _).
  destruct (placed_lookups (items s) (items s') x
              (Z.to_nat (insert_index s)) ltac:(lia) Hi) as (Hlo & Hhi).
  exists s'. unfold size. rewrite Hc.
  split; [exact Hr|]. split; [exact Hok'|].
  split; [exact Hu|].
  unfold insert_index at 1 2.
  split; [intros ->; reflexivity|]. split; [intros ->; reflexivity|].
  repeat split; assumption.
Qed.

(** C4.  On every state that satisfies the invariant [attach] returns.
    The new item stands right after the item that was current (at position
    [used], the end, when there was none): the items up to the current one
    and those after it keep their order, the latter one position higher.
    The cursor is on the new item in both cases, so that [current()]
    returns it, and [size()] is one more than before. *)
Theorem attach_spec s x :
  rep_ok s ->
  exists s', result (attach junk s x) = Done s' /\
    rep_ok s' /\
    size s' = size s + 1 /\
    (is_item s = true -> current_index s' = current_index s + 1) /\
    (is_item s = false -> current_index s' = used s) /\
    is_item s' = true /\
    current s' = ret x /\
    items s' = take (Z.to_nat (current_index s')) (items s)
               ++ x :: drop (Z.to_nat (current_index s')) (items s) /\
    (forall j, (j < Z.to_nat (current_index s'))%nat ->
               items s' !! j = items s !! j) /\
    (forall j, (Z.to_nat (current_index s') <= j)%nat ->
               items s' !! S j = items s !! j).
Proof.
  intros Hok.
  pose proof (attach_index_bounds s Hok) as Hb.
  pose proof (length_items s Hok) as Hlen.
  destruct (attach_Done junk s x Hok) as (s' & Hr & Hok' & Hi & Hc & Hu & Hk).
  destruct (placed_item s' (items s) x (attach_index s) Hok'
              ltac:(lia) Hc Hi) as (Hitem & Hcur & _).
  destruct (placed_lookups (items s) (items s') x
              (Z.to_nat (attach_index s)) ltac:(lia) Hi) as (Hlo & Hhi).
  exists s'. unfold size. rewrite Hc.
  split; [exact Hr|]. split; [exact Hok'|].
  split; [exact Hu|].
  unfold attach_index at 1 2.
  split; [intros ->; reflexivity|]. split; [intros ->; reflexivity|].
  repeat split; assumption.
Qed.

(** C5.  On a state with a current item, [remove_current] returns; the size
    is one less, the items after the cursor are each one position lower
    (those before it stay), the cursor keeps its value, there is a current
    item afterwards exactly when the removed one was not the last. *)
Theorem remove_current_spec s :
  rep_ok s -> current_index s < used s ->
  exists s', result (remove_current s) = Done s' /\
    size s' = size s - 1 /\
    current_index s' = current_index s /\
    items s' = take (Z.to_nat (current_index s)) (items s)
               ++ drop (S (Z.to_nat (current_index s))) (items s) /\
    (forall j, (Z.to_nat (current_index s) <= j)%nat ->
               items s' !! j = items s !! S j) /\
    (forall j, (j < Z.to_nat (current_index s))%nat ->
               items s' !! j = items s !! j) /\
    (current_index s = used s - 1 -> is_item s' = false) /\
    (current_index s < used s - 1 -> is_item s' = true).
Proof.
  intros Hok Hlt.
  assert (Hitem : is_item s = true) by (apply is_item_true; lia).
  destruct (remove_current_Done s Hok Hitem)
    as (s' & Hr & Hok' & Hi & Hc & Hu & Hk).
  pose proof (length_items s Hok) as Hlen.
  destruct Hok as (Hc0 & _).
  exists s'. unfold size. repeat split; try assumption.
  - intros j Hj. rewrite Hi.
    rewrite lookup_app_r by (rewrite length_take; lia).
    rewrite length_take, lookup_drop. f_equal. lia.
  - intros j Hj. rewrite Hi.
    rewrite lookup_app_l by (rewrite length_take; lia).
    apply lookup_take_lt. exact Hj.
  - intros E. apply is_item_false. lia.
  - intros E. apply is_item_true. lia.
Qed.

(** C6.  On every state, [advance], [current] and [remove_current] stop at
    their [assert] exactly when [is_item()] is false; when it is true (on a
    state that satisfies the class invariant) each of them returns. *)
Theorem guarded_abort_iff s :
  (result (advance s) = AssertFail <-> is_item s = false) /\
  (result (current s) = AssertFail <-> is_item s = false) /\
  (result (remove_current s) = AssertFail <-> is_item s = false) /\
  (rep_ok s -> is_item s = true ->
     (exists s', result (advance s) = Done s') /\
     (exists v, result (current s) = Done v) /\
     (exists s', result (remove_current s) = Done s')).
Proof.
  assert (Hret : rep_ok s -> is_item s = true ->
     (exists s', result (advance s) = Done s') /\
     (exists v, result (current s) = Done v) /\
     (exists s', result (remove_current s) = Done s')).
  { intros Hok Hitem. repeat split.
    - rewrite (advance_Done s Hitem). eexists. reflexivity.
    - destruct (current_Done s Hok Hitem) as (v & -> & _).
      exists v. reflexivity.
    - destruct (remove_current_Done s Hok Hitem) as (s' & Hr & _).
      exists s'. exact Hr. }
  destruct (is_item s) eqn:E.
  - split; [rewrite (advance_Done s E); split; discriminate|].
    split; [|split; [|exact Hret]].
    + unfold current. rewrite E. unfold assert. rewrite bind_ret_l.
      split; [|discriminate].
      intros H. destruct (load_not_AssertFail _ _ H).
    + unfold remove_current. rewrite E. unfold assert. rewrite bind_ret_l.
      split; [|discriminate].
      rewrite result_bind. unfold shift_down.
      match goal with |- context [shift_down_loop ?n ?i ?b ?a] =>
        pose proof (shift_down_loop_not_AssertFail n i b a) as Hl;
        destruct (result (shift_down_loop n i b a)) end;
        [discriminate | contradiction | discriminate].
  - destruct (guarded_AssertFail s E) as (-> & -> & ->).
    repeat split; intros; try reflexivity; discriminate.
Qed.

(** C7.  [start()] followed by [used] rounds of [current()] and
    [advance()] returns; the calls of [current()] yield the items at
    positions [0] to [used-1] in order, and [is_item()] is false at the
    end. *)
Theorem traverse_visits_all s :
  rep_ok s ->
  exists s', result (traverse s) = Done (items s, s') /\
             is_item s' = false.
Proof.
  intros Hok.
  pose proof (length_items s Hok) as Hlen.
  pose proof (rep_ok_start s Hok) as Hok0.
  destruct Hok as (Hc & _).
  unfold traverse.
  rewrite (visit_result (Z.to_nat (used s)) (start s) 0 Hok0 eq_refl)
    by (cbn; lia).
  rewrite items_start, drop_0, take_ge by lia.
  eexists. split; [reflexivity|].
  apply is_item_false. reflexivity.
Qed.

(** C8.  On a full array, [insert] and [attach] start with
    [resize(floor(1.25 * capacity) + 1)], which makes exactly that the
    capacity, and go on in the larger array: both return, with this
    capacity.  On an array that is not full the first statement changes
    nothing and both return with the capacity they found. *)
Theorem growth_policy s x :
  rep_ok s ->
  (used s = capacity s ->
     grow_if_full junk s = resize junk s (growth (capacity s)) /\
     growth (capacity s) = 5 * capacity s / 4 + 1 /\
     (exists g, result (grow_if_full junk s) = Done g /\
                capacity g = 5 * capacity s / 4 + 1 /\
                items g = items s) /\
     (exists s', result (insert junk s x) = Done s' /\
                 capacity s' = 5 * capacity s / 4 + 1 /\
                 Z.of_nat (length (data s')) = 5 * capacity s / 4 + 1) /\
     (exists s', result (attach junk s x) = Done s' /\
                 capacity s' = 5 * capacity s / 4 + 1 /\
                 Z.of_nat (length (data s')) = 5 * capacity s / 4 + 1)) /\
  (used s < capacity s ->
     grow_if_full junk s = ret s /\
     (exists s', result (insert junk s x) = Done s' /\
                 capacity s' = capacity s /\
                 Z.of_nat (length (data s')) = capacity s) /\
     (exists s', result (attach junk s x) = Done s' /\
                 capacity s' = capacity s /\
                 Z.of_nat (length (data s')) = capacity s)).
Proof.
  intros Hok.
  destruct (grow_if_full_Done junk s Hok)
    as (g & Hg & Hokg & Hi & Hu & Hc & Hk).
  destruct (insert_Done junk s x Hok)
    as (si & Hri & Hoki & _ & _ & _ & Hki).
  destruct (attach_Done junk s x Hok)
    as (sa & Hra & Hoka & _ & _ & _ & Hka).
  destruct Hoki as (_ & _ & _ & Hli). destruct Hoka as (_ & _ & _ & Hla).
  unfold grown_capacity in *. unfold grow_if_full in *.
  split; intros Hfull.
  - rewrite <- growth_eq.
    replace (used s =? capacity s) with true in *
      by (symmetry; apply Z.eqb_eq; exact Hfull).
    split; [reflexivity|]. split; [reflexivity|].
    split; [exists g; repeat split; assumption|].
    split; [exists si | exists sa]; repeat split; congruence.
  - replace (used s =? capacity s) with false in *
      by (symmetry; apply Z.eqb_neq; lia).
    split; [reflexivity|].
    split; [exists si | exists sa]; repeat split; congruence.
Qed.

(** C9.  When [current_index <= used], [is_item()] is the truth value of
    [current_index < used], which is that of [current_index != used]; it
    is a function of the state alone and returns nothing but the flag. *)
Theorem is_item_spec s :
  current_index s <= used s ->
  is_item s = (current_index s <? used s) /\
  is_item s = negb (current_index s =? used s).
Proof.
  intros Hle. split; [|reflexivity].
  unfold is_item.
  destruct (Z.eqb_spec (current_index s) (used s)),
           (Z.ltb_spec (current_index s) (used s)); cbn; lia || reflexivity.
Qed.

(** C10.  [start] changes the cursor only, and so does [advance] when
    there is a current item: [used], [capacity], the array and with it
    every item stay as they were, and neither writes to the array. *)
Theorem start_advance_frame s :
  (used (start s) = used s /\ capacity (start s) = capacity s /\
   data (start s) = data s /\ items (start s) = items s /\
   current_index (start s) = 0) /\
  (current_index s < used s ->
   exists s', advance s = ret s' /\
     used s' = used s /\ capacity s' = capacity s /\
     data s' = data s /\ items s' = items s /\
     current_index s' = current_index s + 1).
Proof.
  split; [repeat split|].
  intros Hlt.
  assert (Hitem : is_item s = true) by (apply is_item_true; lia).
  eexists. split; [apply (advance_Done s Hitem)|].
  repeat split.
Qed.

End Properties.

(** ** The sample objects *)

Lemma reachable_fresh_1 : reachable 0 fresh_1.
Proof. apply reach_construct. Qed.

Lemma reachable_one_of_2 : reachable 0 one_of_2.
Proof.
  apply (reach_insert 0 (construct 0 2) 5); [apply reach_construct|].
  reflexivity.
Defined.

Lemma reachable_full_1 : reachable 0 full_1.
Proof.
  apply (reach_attach 0 (construct 0 1) 7); [apply reach_construct|].
  reflexivity.
Qed.

Lemma reachable_three_of_4 : reachable 0 three_of_4.
Proof.
  apply (reach_insert 0 (Sequence [5; 9; 0; 0] 2 1 4) 7); [|reflexivity].
  apply (reach_attach 0 (Sequence [5; 0; 0; 0] 1 0 4) 9); [|reflexivity].
  apply (reach_attach 0 (construct 0 4) 5); [|reflexivity].
  apply reach_construct.
Qed.

Lemma reachable_full_4 : reachable 0 full_4.
Proof.
  apply (reach_attach 0 (Sequence [5; 7; 9; 0] 3 3 4) 11); [|reflexivity].
  apply (reach_advance 0 (Sequence [5; 7; 9; 0] 3 2 4)); [|reflexivity].
  apply (reach_attach 0 (Sequence [5; 7; 0; 0] 2 1 4) 9); [|reflexivity].
  apply (reach_attach 0 (Sequence [5; 0; 0; 0] 1 0 4) 7); [|reflexivity].
  apply (reach_attach 0 (construct 0 4) 5); [|reflexivity].
  apply reach_construct.
Qed.

Lemma rep_ok_three_of_4 : rep_ok three_of_4.
Proof. unfold rep_ok; cbn; lia. Defined.

Lemma rep_ok_full_4 : rep_ok full_4.
Proof. unfold rep_ok; cbn; lia. Defined.

(** ** The properties on the sample objects *)

Lemma reachable_invariant_witness :
  reachable 0 three_of_4 /\
  (0 <= used three_of_4 <= capacity three_of_4 /\
   capacity three_of_4 >= 1 /\
   0 <= current_index three_of_4 <= used three_of_4).
Proof.
  split; [exact reachable_three_of_4|].
  apply (reachable_invariant 0 three_of_4). exact reachable_three_of_4.
Defined.

Lemma remove_current_spec_witness :
  rep_ok three_of_4 /\ current_index three_of_4 < used three_of_4 /\
  exists s', result (remove_current three_of_4) = Done s' /\
             size s' = 2 /\ current_index s' = 1 /\ items s' = [5; 9].
Proof.
  assert (Hlt : current_index three_of_4 < used three_of_4) by (cbn; lia).
  split; [exact rep_ok_three_of_4|]. split; [exact Hlt|].
  destruct (remove_current_spec three_of_4 rep_ok_three_of_4 Hlt)
    as (s' & Hr & Hs & Hc & Hi & _).
  exists s'. repeat split; assumption.
Defined.

Lemma guarded_abort_iff_witness :
  rep_ok three_of_4 /\ is_item three_of_4 = true /\
  (exists v, result (current three_of_4) = Done v) /\
  (result (advance fresh_1) = AssertFail <-> is_item fresh_1 = false).
Proof.
  split; [exact rep_ok_three_of_4|]. split; [reflexivity|]. split.
  - destruct (guarded_abort_iff three_of_4) as (_ & _ & _ & Hret).
    apply (Hret rep_ok_three_of_4 eq_refl).
  - apply (guarded_abort_iff fresh_1).
Defined.

Lemma traverse_visits_all_witness :
  rep_ok three_of_4 /\
  exists s', result (traverse three_of_4) = Done ([5; 7; 9], s') /\
             is_item s' = false.
Proof.
  split; [exact rep_ok_three_of_4|].
  apply (traverse_visits_all three_of_4 rep_ok_three_of_4).
Defined.

Lemma growth_policy_witness :
  rep_ok full_4 /\ used full_4 = capacity full_4 /\
  (exists s', result (insert 0 full_4 1) = Done s' /\ capacity s' = 6) /\
  (exists s', result (attach 0 full_4 1) = Done s' /\ capacity s' = 6) /\
  rep_ok three_of_4 /\ used three_of_4 < capacity three_of_4 /\
  (exists s', result (insert 0 three_of_4 1) = Done s' /\ capacity s' = 4) /\
  (exists s', result (attach 0 three_of_4 1) = Done s' /\ capacity s' = 4).
Proof.
  assert (Hfull : used full_4 = capacity full_4) by reflexivity.
  assert (Hlt : used three_of_4 < capacity three_of_4) by (cbn; lia).
  destruct (growth_policy 0 full_4 1 rep_ok_full_4) as (Hgrow & _).
  destruct (Hgrow Hfull)
    as (_ & _ & _ & (si & Hri & Hki & _) & (sa & Hra & Hka & _)).
  destruct (growth_policy 0 three_of_4 1 rep_ok_three_of_4) as (_ & Hkeep).
  destruct (Hkeep Hlt) as (_ & (ti & Hti & Hkti & _) & (ta & Hta & Hkta & _)).
  split; [exact rep_ok_full_4|]. split; [exact Hfull|].
  split; [exists si; split; assumption|].
  split; [exists sa; split; assumption|].
  split; [exact rep_ok_three_of_4|]. split; [exact Hlt|].
  split; [exists ti | exists ta]; split; assumption.
Defined.

Lemma is_item_spec_witness :
  current_index three_of_4 <= used three_of_4 /\
  is_item three_of_4 = (current_index three_of_4 <? used three_of_4).
Proof.
  assert (Hle : current_index three_of_4 <= used three_of_4) by (cbn; lia).
  split; [exact Hle|].
  apply (is_item_spec three_of_4 Hle).
Defined.

Lemma start_advance_frame_witness :
  current_index three_of_4 < used three_of_4 /\
  exists s', advance three_of_4 = ret s' /\ used s' = 3 /\
             capacity s' = 4 /\ items s' = [5; 7; 9] /\
             current_index s' = 2.
Proof.
  assert (Hlt : current_index three_of_4 < used three_of_4) by (cbn; lia).
  split; [exact Hlt|].
  destruct (start_advance_frame three_of_4) as (_ & Hadv).
  destruct (Hadv Hlt) as (s' & Hr & Hu & Hk & _ & Hi & Hc).
  exists s'. repeat split; assumption.
Defined.

(** ** Where the shift of [insert] and [attach] writes *)

(** C1.  The code does not keep the writes of [insert] and [attach] inside
    [0 .. used], nor inside the array.  The shift loop starts at index
    [used + 1]: on a new sequence of capacity 2, [insert] writes [data[1]]
    while [used] is 0; on a new sequence of capacity 1, its first write is
    to [data[1]], outside the array of one cell; and [attach] after the
    item of a sequence with 1 item in 2 cells first writes [data[2]],
    outside the array of two cells. *)
Theorem shift_writes_past_used_and_capacity :
  writes (insert 0 (construct 0 2) 5) = [1; 0] /\
  (rep_ok fresh_1 /\ used fresh_1 = 0 /\ capacity fresh_1 = 1 /\
   length (data fresh_1) = 1%nat /\
   insert 0 fresh_1 5 = Run [1; 0] [1] (Done (Sequence [5] 1 0 1))) /\
  (rep_ok one_of_2 /\ used one_of_2 = 1 /\ capacity one_of_2 = 2 /\
   length (data one_of_2) = 2%nat /\
   attach 0 one_of_2 7 = Run [2; 1] [2] (Done (Sequence [5; 7] 2 1 2))).
Proof.
  split; [reflexivity|]. split.
  - split; [apply rep_ok_construct | repeat split].
  - split; [unfold rep_ok; cbn; lia | repeat split].
Qed.

Lemma insert_spec_witness :
  rep_ok full_1 /\
  exists s', result (insert 0 full_1 5) = Done s' /\
             size s' = 2 /\ current s' = ret 5 /\ items s' = [5; 7].
Proof.
  assert (Hok : rep_ok full_1) by (unfold rep_ok; cbn; lia).
  split; [exact Hok|].
  destruct (insert_spec 0 full_1 5 Hok)
    as (s' & Hr & _ & Hs & Hc & _ & _ & Hcur & Hi & _).
  exists s'. rewrite (Hc eq_refl) in Hi.
  repeat split; assumption.
Defined.

Lemma attach_spec_witness :
  rep_ok one_of_2 /\
  exists s', result (attach 0 one_of_2 7) = Done s' /\
             size s' = 2 /\ current s' = ret 7 /\ items s' = [5; 7].
Proof.
  assert (Hok : rep_ok one_of_2) by (unfold rep_ok; cbn; lia).
  split; [exact Hok|].
  destruct (attach_spec 0 one_of_2 7 Hok)
    as (s' & Hr & _ & Hs & Hc & _ & _ & Hcur & Hi & _).
  exists s'. rewrite (Hc eq_refl) in Hi.
  repeat split; assumption.
Defined.

(** ** The writes of the copy loop and of the loop of [remove_current] *)

Section LoopWrites.

Context {V : Type}.
Implicit Types (a src dst : list V).

Lemma run_eta {A} (m : run A) : m = Run (writes m) (strays m) (result m).
Proof. destruct m. reflexivity. Qed.

(** The copy loop writes cells [i], [i+1], ... in this order. *)
Lemma copy_loop_writes src : forall (n i : nat) dst,
  (i + n <= length src)%nat -> (i + n <= length dst)%nat ->
  writes (copy_loop n (Z.of_nat i) (Z.of_nat (i + n)) src dst)
  = seqZ (Z.of_nat i) (Z.of_nat n).
Proof.
  induction n as [|n IH]; intros i dst Hs Hd; simpl.
  - rewrite seqZ_nil by lia. reflexivity.
  - replace (Z.of_nat i <? Z.of_nat (i + S n)) with true
      by (symmetry; apply Z.ltb_lt; lia).
    destruct (lookup_lt_is_Some_2 src i) as [v Hv]; [lia|].
    rewrite (load_nat _ _ _ Hv), bind_ret_l.
    rewrite store_nat by lia.
    rewrite (writes_bind_Done _ _ (<[i := v]> dst)) by reflexivity.
    cbn [writes].
    replace (Z.of_nat i + 1) with (Z.of_nat (S i)) by lia.
    replace (i + S n)%nat with (S i + n)%nat by lia.
    rewrite IH by (rewrite ?length_insert; lia).
    rewrite (seqZ_cons (Z.of_nat i) (Z.of_nat (S n))) by lia.
    replace (Z.succ (Z.of_nat i)) with (Z.of_nat (S i)) by lia.
    replace (Z.pred (Z.of_nat (S n))) with (Z.of_nat n) by lia.
    reflexivity.
Qed.

Lemma copy_items_writes (u : nat) src dst :
  (u <= length src)%nat -> (u <= length dst)%nat ->
  writes (copy_items (Z.of_nat u) src dst) = seqZ 0 (Z.of_nat u).
Proof.
  intros Hs Hd. unfold copy_items. rewrite Nat2Z.id.
  pose proof (copy_loop_writes src u 0 dst) as H.
  change (Z.of_nat 0) with 0 in H. rewrite Nat.add_0_l in H.
  apply H; lia.
Qed.

(** The loop of [remove_current] writes cells [c], [c+1], ... in this
    order. *)
Lemma shift_down_loop_writes : forall (n c : nat) a,
  (c + n < length a)%nat ->
  writes (shift_down_loop n (Z.of_nat c) (Z.of_nat (c + n)) a)
  = seqZ (Z.of_nat c) (Z.of_nat n).
Proof.
  induction n as [|n IH]; intros c a Hlen; simpl.
  - rewrite seqZ_nil by lia. reflexivity.
  - replace (Z.of_nat c <? Z.of_nat (c + S n)) with true
      by (symmetry; apply Z.ltb_lt; lia).
    replace (Z.of_nat c + 1) with (Z.of_nat (S c)) by lia.
    destruct (lookup_lt_is_Some_2 a (S c)) as [v Hv]; [lia|].
    rewrite (load_nat _ _ _ Hv), bind_ret_l.
    rewrite store_nat by lia.
    rewrite (writes_bind_Done _ _ (<[c := v]> a)) by reflexivity.
    cbn [writes].
    replace (c + S n)%nat with (S c + n)%nat by lia.
    rewrite IH by (rewrite length_insert; lia).
    rewrite (seqZ_cons (Z.of_nat c) (Z.of_nat (S n))) by lia.
    replace (Z.succ (Z.of_nat c)) with (Z.of_nat (S c)) by lia.
    replace (Z.pred (Z.of_nat (S n))) with (Z.of_nat n) by lia.
    reflexivity.
Qed.

Lemma shift_down_writes (c b : nat) a :
  (c <= b)%nat -> (b < length a)%nat ->
  writes (shift_down (Z.of_nat c) (Z.of_nat b) a)
  = seqZ (Z.of_nat c) (Z.of_nat (b - c)).
Proof.
  intros Hc Hb. unfold shift_down.
  replace (Z.to_nat (Z.of_nat b - Z.of_nat c)) with (b - c)%nat by lia.
  pose proof (shift_down_loop_writes (b - c) c a) as H.
  replace (c + (b - c))%nat with b in H by lia.
  apply H. exact Hb.
Qed.

End LoopWrites.

(** ** Construction, [resize], copies and assignment *)

Section Copies.

Context {V : Type} (junk : V).
Implicit Types (s source : sequence V) (x : V).

(** Copying [u] items into a new array of [k] cells. *)
Lemma copy_into_new_array (u : nat) (a : list V) k :
  (u <= length a)%nat -> Z.of_nat u <= k ->
  copy_items (Z.of_nat u) a (new_array junk k)
  = Run (seqZ 0 (Z.of_nat u)) []
        (Done (take u a ++ replicate (Z.to_nat (k - Z.of_nat u)) junk)).
Proof.
  intros Ha Hk.
  rewrite (run_eta (copy_items _ _ _)).
  rewrite copy_items_writes by (rewrite ?length_new_array; lia).
  rewrite copy_items_strays by (rewrite ?length_new_array; lia).
  rewrite copy_items_result by (rewrite ?length_new_array; lia).
  unfold new_array. rewrite drop_replicate.
  replace (Z.to_nat k - u)%nat with (Z.to_nat (k - Z.of_nat u)) by lia.
  reflexivity.
Qed.

Lemma bind_Done_ret {A B} (ws st : list Z) (a : A) (f : A -> B) :
  bind (Run ws st (Done a)) (fun a => ret (f a)) = Run ws st (Done (f a)).
Proof. unfold bind. cbn. rewrite !app_nil_r. reflexivity. Qed.

Lemma resize_run s n :
  rep_ok s ->
  resize junk s n
  = Run (seqZ 0 (used s)) []
        (Done (Sequence
                 (items s ++ replicate
                    (Z.to_nat (Z.max (used s) (Z.max 1 n) - used s)) junk)
                 (used s) (current_index s)
                 (Z.max (used s) (Z.max 1 n)))).
Proof.
  intros Hok.
  destruct (rep_ok_nat s Hok) as (u & c & Hu & Hc & Hcu & Hul & Hl & Hk).
  unfold resize, items.
  set (k' := if (if n <? 1 then 1 else n) <? used s then used s
             else if n <? 1 then 1 else n).
  assert (Hk' : k' = Z.max (used s) (Z.max 1 n)).
  { subst k'. destruct (Z.ltb_spec n 1);
      match goal with |- context [?a <? ?b] => destruct (Z.ltb_spec a b) end;
      lia. }
  clearbody k'. subst k'. rewrite Hu, Nat2Z.id.
  rewrite copy_into_new_array by lia.
  apply (bind_Done_ret _ _ _ (fun d => Sequence d _ _ _)).
Qed.

Lemma copy_construct_run s :
  rep_ok s ->
  copy_construct junk s
  = Run (seqZ 0 (used s)) []
        (Done (Sequence
                 (items s ++ replicate (Z.to_nat (capacity s - used s)) junk)
                 (used s) (current_index s) (capacity s))).
Proof.
  intros Hok.
  destruct (rep_ok_nat s Hok) as (u & c & Hu & Hc & Hcu & Hul & Hl & Hk).
  unfold copy_construct, items. rewrite Hu, Nat2Z.id.
  rewrite copy_into_new_array by lia.
  apply (bind_Done_ret _ _ _ (fun d => Sequence d _ _ _)).
Qed.

(** The state [resize] and the copies build: [u] items followed by cells
    that were never written. *)
Lemma rep_ok_padded (l : list V) (u : nat) c k :
  (u <= length l)%nat -> 0 <= c <= Z.of_nat u -> Z.of_nat u <= k -> 1 <= k ->
  rep_ok (Sequence (take u l ++ replicate (Z.to_nat (k - Z.of_nat u)) junk)
            (Z.of_nat u) c k) /\
  items (Sequence (take u l ++ replicate (Z.to_nat (k - Z.of_nat u)) junk)
           (Z.of_nat u) c k) = take u l.
Proof.
  intros Hl Hc Hk H1. unfold rep_ok, items.
  cbn [data used current_index capacity].
  rewrite length_app, length_take, length_replicate, Nat2Z.id.
  rewrite take_app_length' by (rewrite length_take; lia).
  repeat split; lia.
Qed.

End Copies.

Section CopyProperties.

Context {V : Type} (junk : V).
Implicit Types (s source : sequence V) (x : V).

Lemma current_same_items s s' :
  rep_ok s -> rep_ok s' -> items s' = items s -> used s' = used s ->
  current_index s' = current_index s -> current s' = current s.
Proof.
  intros Hok Hok' Hi Hu Hc.
  pose proof (is_item_grown s s' Hu Hc) as Hitem.
  destruct (is_item s) eqn:E.
  - destruct (current_Done s Hok E) as (v & -> & Hv).
    destruct (current_Done s' Hok' Hitem) as (v' & -> & Hv').
    rewrite Hi, Hc, Hv in Hv'. injection Hv' as <-. reflexivity.
  - destruct (guarded_AssertFail s E) as (_ & -> & _).
    destruct (guarded_AssertFail s' Hitem) as (_ & -> & _). reflexivity.
Qed.

(** X1.  A new sequence satisfies the invariant, has the requested capacity
    raised to at least 1, no items and no current item, so that [advance],
    [current] and [remove_current] stop at their [assert] on it. *)
Theorem construct_spec n :
  rep_ok (construct junk n) /\
  capacity (construct junk n) = Z.max 1 n /\
  data (construct junk n) = replicate (Z.to_nat (Z.max 1 n)) junk /\
  size (construct junk n) = 0 /\
  items (construct junk n) = [] /\
  is_item (construct junk n) = false /\
  advance (construct junk n) = raise AssertFail /\
  current (construct junk n) = raise AssertFail /\
  remove_current (construct junk n) = raise AssertFail.
Proof.
  assert (Hk : (if n <? 1 then 1 else n) = Z.max 1 n)
    by (destruct (Z.ltb_spec n 1); lia).
  split; [apply rep_ok_construct|].
  unfold construct, size, items, new_array.
  cbn [data used current_index capacity]. rewrite Hk.
  repeat split.
Qed.

(** X2.  On a state that satisfies the invariant [resize] returns, writing
    cells [0 .. used-1] of the new array and nothing else.  The new
    capacity is the request raised to at least 1 and at least [used]; the
    items, the cursor and what [current()] does are unchanged. *)
Theorem resize_spec s n :
  rep_ok s ->
  exists s', resize junk s n = Run (seqZ 0 (used s)) [] (Done s') /\
    rep_ok s' /\
    capacity s' = Z.max (used s) (Z.max 1 n) /\
    used s' = used s /\
    current_index s' = current_index s /\
    items s' = items s /\
    current s' = current s.
Proof.
  intros Hok. rewrite (resize_run junk s n Hok).
  eexists. split; [reflexivity|].
  destruct (rep_ok_nat s Hok) as (u & c & Hu & Hc & Hcu & Hul & Hl & Hk).
  assert (Hitems : items s = take u (data s))
    by (unfold items; rewrite Hu, Nat2Z.id; reflexivity).
  destruct (rep_ok_padded junk (data s) u (current_index s)
              (Z.max (Z.of_nat u) (Z.max 1 n)))
    as (Hok' & Hi); [lia | lia | lia | lia |].
  rewrite <- Hitems, <- Hu in Hok', Hi.
  split; [exact Hok'|]. repeat split; try exact Hi.
  apply current_same_items; try assumption; reflexivity.
Qed.

(** X3.  Two calls of [resize] in a row leave the state that the second
    alone leaves. *)
Theorem resize_resize s n m :
  rep_ok s ->
  result (let* s1 := resize junk s n in resize junk s1 m)
  = result (resize junk s m).
Proof.
  intros Hok.
  destruct (resize_Done junk s n Hok)
    as (s1 & Hr & Hok1 & Hi1 & Hu1 & Hc1 & Hk1).
  rewrite (result_bind_Done _ _ s1 Hr).
  rewrite (resize_run junk s1 m Hok1), (resize_run junk s m Hok).
  rewrite Hu1, Hc1, Hi1. reflexivity.
Qed.

(** X4.  The copy constructor, on a source that satisfies the invariant,
    returns a state with a new array of the capacity of the source, in
    which only cells [0 .. used-1] were written; items, cursor and capacity
    are those of the source.  It is what [resize] to the present capacity
    gives. *)
Theorem copy_construct_spec source :
  rep_ok source ->
  exists s', copy_construct junk source
             = Run (seqZ 0 (used source)) [] (Done s') /\
    rep_ok s' /\
    data s' = items source
              ++ replicate (Z.to_nat (capacity source - used source)) junk /\
    used s' = used source /\
    current_index s' = current_index source /\
    capacity s' = capacity source /\
    items s' = items source /\
    copy_construct junk source = resize junk source (capacity source).
Proof.
  intros Hok. rewrite (copy_construct_run junk source Hok).
  eexists. split; [reflexivity|].
  destruct (rep_ok_nat source Hok) as (u & c & Hu & Hc & Hcu & Hul & Hl & Hk).
  assert (Hitems : items source = take u (data source))
    by (unfold items; rewrite Hu, Nat2Z.id; reflexivity).
  destruct (rep_ok_padded junk (data source) u (current_index source)
              (capacity source))
    as (Hok' & Hi); [lia | lia | lia | lia |].
  rewrite <- Hitems, <- Hu in Hok', Hi.
  split; [exact Hok'|]. repeat split; try exact Hi.
  rewrite (resize_run junk source (capacity source) Hok).
  replace (Z.max (used source) (Z.max 1 (capacity source)))
    with (capacity source) by lia.
  reflexivity.
Qed.

(** X5.  Assignment of an object to itself changes nothing and writes
    nothing.  Assignment from another object that satisfies the invariant
    returns, whatever the state of the target was, the state the copy
    constructor builds from the source: the items, the cursor and also the
    capacity of the source. *)
Theorem assign_spec s :
  assign junk s Self = ret s /\
  (forall source, rep_ok source ->
   exists s', assign junk s (Other source)
              = Run (seqZ 0 (used source)) [] (Done s') /\
     rep_ok s' /\
     items s' = items source /\
     used s' = used source /\
     current_index s' = current_index source /\
     capacity s' = capacity source /\
     assign junk s (Other source) = copy_construct junk source).
Proof.
  split; [reflexivity|]. intros source Hok.
  destruct (copy_construct_Done junk source Hok)
    as (s' & Hr & Hok' & Hi & Hu & Hc & Hk).
  exists s'. rewrite assign_other.
  split.
  - rewrite (copy_construct_run junk source Hok) in Hr |- *.
    cbn in Hr. injection Hr as <-. reflexivity.
  - split; [exact Hok'|]. repeat split; assumption.
Qed.

(** X6.  On a state that satisfies the invariant [size()] is the number of
    items, and a sequence of size 0 has no current item. *)
Theorem size_counts_items s :
  rep_ok s ->
  size s = Z.of_nat (length (items s)) /\
  (size s = 0 -> is_item s = false).
Proof.
  intros Hok. pose proof (length_items s Hok) as Hlen.
  destruct Hok as (Hc & Hu & _). unfold size. split; [lia|].
  intros H0. apply is_item_false. lia.
Qed.

(** X7.  After [start()] the current item of a sequence that is not empty
    is its first item; an empty sequence has no current item after
    [start()], and [current()] stops at its [assert]. *)
Theorem start_current_first s :
  rep_ok s ->
  (0 < size s ->
   is_item (start s) = true /\
   exists v, current (start s) = ret v /\ items s !! 0%nat = Some v) /\
  (size s = 0 ->
   is_item (start s) = false /\ current (start s) = raise AssertFail).
Proof.
  intros Hok. pose proof (rep_ok_start s Hok) as Hok0.
  unfold size. split.
  - intros Hpos.
    assert (Hitem : is_item (start s) = true)
      by (apply is_item_true; cbn; lia).
    split; [exact Hitem|].
    destruct (current_Done (start s) Hok0 Hitem) as (v & Hcur & Hv).
    exists v. split; [exact Hcur | exact Hv].
  - intros H0.
    assert (Hitem : is_item (start s) = false)
      by (apply is_item_false; cbn; lia).
    split; [exact Hitem|].
    apply (guarded_AssertFail (start s) Hitem).
Qed.

End CopyProperties.

(** ** The stray write of [insert] and [attach], and how they compose with
    [remove_current] *)

Section PlacingProperties.

Context {V : Type} (junk : V).
Implicit Types (s : sequence V) (x : V).

Lemma grow_if_full_strays s :
  rep_ok s -> strays (grow_if_full junk s) = [].
Proof.
  intros Hok. unfold grow_if_full.
  destruct (used s =? capacity s); [|reflexivity].
  rewrite (resize_run junk s _ Hok). reflexivity.
Qed.

(** The stray writes of [insert]: the first write of the shift, when the
    array has [used + 1] cells after the growth check. *)
Lemma insert_strays s x :
  rep_ok s ->
  strays (insert junk s x)
  = if used s + 1 =? grown_capacity s then [used s + 1] else [].
Proof.
  intros Hok. pose proof (grown_capacity_gt s Hok) as Hgt.
  destruct (grow_if_full_Done junk s Hok)
    as (g & Hg & Hokg & Hi & Hu & Hc & Hk).
  destruct (rep_ok_nat g Hokg) as (u & c & Hgu & Hgc & Hcu & Hul & Hl & Hgk).
  unfold insert. rewrite (strays_bind_Done _ _ _ Hg).
  rewrite (grow_if_full_strays s Hok). cbn [app].
  rewrite <- Hu, <- Hk in *. rewrite Hgu, Hgc in *.
  destruct (Z.eqb_spec (Z.of_nat u + 1) (capacity g)) as [E|E];
    destruct (is_item g) eqn:Hitem; cbn [negb];
    try apply is_item_true in Hitem;
    try change 0 with (Z.of_nat 0).
  - rewrite open_slot_strays_tight by lia. reflexivity.
  - rewrite open_slot_strays_tight by lia. reflexivity.
  - rewrite open_slot_strays by lia. reflexivity.
  - rewrite open_slot_strays by lia. reflexivity.
Qed.

(** The stray writes of [attach]: none without a current item; with one,
    the first write of the shift, when the array has [used + 1] cells
    after the growth check. *)
Lemma attach_strays s x :
  rep_ok s ->
  strays (attach junk s x)
  = if is_item s && (used s + 1 =? grown_capacity s)
    then [used s + 1] else [].
Proof.
  intros Hok. pose proof (grown_capacity_gt s Hok) as Hgt.
  destruct (grow_if_full_Done junk s Hok)
    as (g & Hg & Hokg & Hi & Hu & Hc & Hk).
  destruct (rep_ok_nat g Hokg) as (u & c & Hgu & Hgc & Hcu & Hul & Hl & Hgk).
  unfold attach. rewrite (strays_bind_Done _ _ _ Hg).
  rewrite (grow_if_full_strays s Hok). cbn [app].
  rewrite <- (is_item_grown s g Hu Hc).
  rewrite <- Hu, <- Hk in *. rewrite Hgu, Hgc in *.
  destruct (is_item g) eqn:Hitem; cbn [negb andb].
  - apply is_item_true in Hitem.
    replace (Z.of_nat c + 1) with (Z.of_nat (S c)) by lia.
    destruct (Z.eqb_spec (Z.of_nat u + 1) (capacity g)) as [E|E].
    + rewrite open_slot_strays_tight by lia. reflexivity.
    + rewrite open_slot_strays by lia. reflexivity.
  - apply is_item_false in Hitem. assert (c = u) as -> by lia.
    rewrite store_nat by lia.
    erewrite strays_bind_Done by reflexivity. reflexivity.
Qed.

(** X8.  On a state that satisfies the invariant, every call of [insert]
    writes [data[used + 1]].  That write is the only one that can fall
    outside the array, and it does exactly when the array has [used + 1]
    cells after the growth check; all other writes of the call are inside
    the array. *)
Theorem insert_stray_write s x :
  rep_ok s ->
  used s + 1 ∈ writes (insert junk s x) /\
  strays (insert junk s x)
  = (if used s + 1 =? grown_capacity s then [used s + 1] else []) /\
  (strays (insert junk s x) = [] <-> used s + 1 < grown_capacity s).
Proof.
  intros Hok. pose proof (grown_capacity_gt s Hok) as Hgt.
  split; [apply insert_writes_above_used; exact Hok|].
  rewrite (insert_strays s x Hok). split; [reflexivity|].
  destruct (Z.eqb_spec (used s + 1) (grown_capacity s)) as [E|E].
  - split; [discriminate | lia].
  - split; [lia | reflexivity].
Qed.

(** X9.  On a state that satisfies the invariant, [attach] without a
    current item writes nothing outside the array.  With a current item
    every call writes [data[used + 1]], which falls outside the array
    exactly when the array has [used + 1] cells after the growth check; no
    other write of the call does. *)
Theorem attach_stray_write s x :
  rep_ok s ->
  (is_item s = true -> used s + 1 ∈ writes (attach junk s x)) /\
  strays (attach junk s x)
  = (if is_item s && (used s + 1 =? grown_capacity s)
     then [used s + 1] else []) /\
  (strays (attach junk s x) = []
   <-> is_item s = false \/ used s + 1 < grown_capacity s).
Proof.
  intros Hok. pose proof (grown_capacity_gt s Hok) as Hgt.
  split; [apply attach_writes_above_used; exact Hok|].
  rewrite (attach_strays s x Hok). split; [reflexivity|].
  destruct (is_item s); cbn [andb].
  - destruct (Z.eqb_spec (used s + 1) (grown_capacity s)) as [E|E].
    + split; [discriminate | intros [H|H]; [discriminate H | lia]].
    + split; [right; lia | reflexivity].
  - split; [left; reflexivity | reflexivity].
Qed.

(** X10.  On a full array, [insert] keeps all its writes inside the array
    exactly when the array has at least 4 cells:
    [floor(1.25 * capacity) + 1] is [capacity + 1] for a capacity below 4,
    which leaves no room for the shift, and the call then writes
    [data[capacity + 1]]. *)
Theorem insert_full_stray_write s x :
  rep_ok s -> used s = capacity s ->
  (strays (insert junk s x) = [] <-> 4 <= capacity s) /\
  (capacity s < 4 -> strays (insert junk s x) = [capacity s + 1]).
Proof.
  intros Hok Hfull.
  assert (Hg : grown_capacity s = 5 * capacity s / 4 + 1).
  { unfold grown_capacity.
    replace (used s =? capacity s) with true
      by (symmetry; apply Z.eqb_eq; exact Hfull).
    apply growth_eq. }
  pose proof (Z.div_mod (5 * capacity s) 4 ltac:(lia)) as Hdiv.
  pose proof (Z.mod_pos_bound (5 * capacity s) 4 ltac:(lia)) as Hmod.
  assert (H1 : 1 <= capacity s) by apply Hok.
  rewrite (insert_strays s x Hok), Hg, Hfull.
  destruct (Z.eqb_spec (capacity s + 1) (5 * capacity s / 4 + 1)) as [E|E].
  - split; [split; [discriminate | lia] | reflexivity].
  - split; [split; [lia | reflexivity] | lia].
Qed.

(** X11.  [insert] followed by [remove_current], when [insert] has room:
    both return, and the items, the size and the cursor of a state with a
    current item are what they were (without a current item the first item
    becomes current). *)
Theorem insert_remove_current s x :
  rep_ok s -> used s + 1 < grown_capacity s ->
  exists s'',
    result (let* s' := insert junk s x in remove_current s') = Done s'' /\
    rep_ok s'' /\ items s'' = items s /\ size s'' = size s /\
    current_index s'' = insert_index s /\
    capacity s'' = grown_capacity s.
Proof.
  intros Hok Hlt.
  pose proof (insert_index_bounds s Hok) as Hb.
  pose proof (length_items s Hok) as Hlen.
  destruct (insert_room junk s x Hok Hlt)
    as (s' & Hr & Hok' & Hi & Hc & Hu & Hk).
  destruct (placed_item s' (items s) x (insert_index s) Hok'
              ltac:(lia) Hc Hi)
    as (_ & _ & s'' & Hr'' & Hok'' & Hi'' & Hu'' & Hc'' & Hk'').
  exists s''. rewrite (result_bind_Done _ _ s' Hr). unfold size.
  split; [exact Hr''|]. split; [exact Hok''|].
  repeat split; try assumption; lia.
Qed.


End PlacingProperties.

(** ** Removing and attaching in a row *)

Section Rows.

Context {V : Type} (junk : V).
Implicit Types (s : sequence V) (x : V) (xs : list V).

(** X13.  With a current item, [remove_current] writes the cells from the
    cursor to [used - 2], in this order, and no other: all its writes are
    below [used - 1], inside the array. *)
Theorem remove_current_writes s :
  rep_ok s -> is_item s = true ->
  writes (remove_current s)
  = seqZ (current_index s) (used s - 1 - current_index s) /\
  (forall i, i ∈ writes (remove_current s) ->
             current_index s <= i < used s - 1).
Proof.
  intros Hok Hitem.
  destruct (rep_ok_nat s Hok) as (u & c & Hu & Hc & Hcu & Hul & Hl & Hk).
  assert (Hw : writes (remove_current s)
               = seqZ (current_index s) (used s - 1 - current_index s)).
  { unfold remove_current. rewrite Hitem.
    unfold assert. rewrite bind_ret_l.
    apply is_item_true in Hitem. rewrite Hu, Hc in *.
    destruct u as [|u]; [lia|].
    replace (Z.of_nat (S u) - 1) with (Z.of_nat u) by lia.
    rewrite (writes_bind_Done _ _ _
               (shift_down_result c u (data s) ltac:(lia) ltac:(lia))).
    cbn [writes ret]. rewrite app_nil_r.
    rewrite shift_down_writes by lia.
    f_equal. lia. }
  split; [exact Hw|].
  intros i Hi. rewrite Hw in Hi. apply elem_of_seqZ in Hi. lia.
Qed.

(** Attaching a row of items after the last item, while the array has room
    for the shift. *)
Lemma attach_all_after_last : forall xs s,
  rep_ok s -> 0 < used s -> current_index s = used s - 1 ->
  used s + Z.of_nat (length xs) < capacity s ->
  exists s', result (attach_all junk s xs) = Done s' /\ rep_ok s' /\
    items s' = items s ++ xs /\
    used s' = used s + Z.of_nat (length xs) /\
    current_index s' = used s' - 1 /\
    capacity s' = capacity s.
Proof.
  induction xs as [|x xs IH]; intros s Hok Hpos Hc Hroom; cbn [attach_all].
  - exists s. rewrite app_nil_r. cbn [length].
    repeat split; try apply Hok; lia.
  - cbn [length] in Hroom.
    assert (Hitem : is_item s = true) by (apply is_item_true; lia).
    assert (Hg : grown_capacity s = capacity s).
    { unfold grown_capacity.
      destruct (Z.eqb_spec (used s) (capacity s)); [lia | reflexivity]. }
    assert (Ha : attach_index s = used s).
    { unfold attach_index. rewrite Hitem. lia. }
    destruct (attach_room junk s x Hok ltac:(intros _; lia))
      as (s1 & Hr1 & Hok1 & Hi1 & Hc1 & Hu1 & Hk1).
    rewrite (result_bind_Done _ _ s1 Hr1).
    destruct (IH s1 Hok1 ltac:(lia) ltac:(lia) ltac:(lia))
      as (s' & Hr & Hok' & Hi & Hu & Hc' & Hk).
    exists s'. split; [exact Hr|]. split; [exact Hok'|].
    pose proof (length_items s Hok) as Hlen.
    rewrite Hi, Hi1, Ha.
    rewrite take_ge, drop_ge by lia.
    rewrite <- app_assoc. cbn [length].
    repeat split; lia.
Qed.

(** The first [attach] on a new sequence. *)
Lemma attach_first n x :
  exists s1, result (attach junk (construct junk n) x) = Done s1 /\
    rep_ok s1 /\ items s1 = [x] /\ used s1 = 1 /\
    current_index s1 = 0 /\ capacity s1 = Z.max 1 n.
Proof.
  pose proof (rep_ok_construct junk n) as Hok.
  assert (Hk : capacity (construct junk n) = Z.max 1 n).
  { unfold construct. cbn [capacity]. destruct (Z.ltb_spec n 1); lia. }
  assert (Hitem : is_item (construct junk n) = false) by reflexivity.
  assert (Hg : grown_capacity (construct junk n) = Z.max 1 n).
  { unfold grown_capacity.
    destruct (Z.eqb_spec (used (construct junk n))
                         (capacity (construct junk n))) as [E|E];
      [|exact Hk].
    rewrite Hk in E. cbn in E. lia. }
  destruct (attach_room junk (construct junk n) x Hok
              ltac:(rewrite Hitem; discriminate))
    as (s1 & Hr1 & Hok1 & Hi1 & Hc1 & Hu1 & Hk1).
  exists s1. split; [exact Hr1|]. split; [exact Hok1|].
  rewrite Hg in Hk1. unfold attach_index in *. rewrite Hitem in *.
  repeat split; assumption.
Qed.

(** X14.  Attaching, one after the other, fewer items than a new sequence
    has cells gives a sequence of exactly these items, in this order, whose
    current item is the last one attached; the capacity is still the
    initial one. *)
Theorem attach_all_below_capacity n xs :
  xs <> [] -> Z.of_nat (length xs) < n ->
  exists s', result (attach_all junk (construct junk n) xs) = Done s' /\
    rep_ok s' /\ items s' = xs /\
    size s' = Z.of_nat (length xs) /\
    current_index s' = size s' - 1 /\
    capacity s' = n.
Proof.
  intros Hne Hlen. destruct xs as [|x xs]; [congruence|].
  cbn [length] in Hlen. cbn [attach_all].
  destruct (attach_first n x) as (s1 & Hr1 & Hok1 & Hi1 & Hu1 & Hc1 & Hk1).
  rewrite (result_bind_Done _ _ s1 Hr1).
  destruct (attach_all_after_last xs s1 Hok1 ltac:(lia) ltac:(lia)
              ltac:(lia))
    as (s' & Hr & Hok' & Hi & Hu & Hc & Hk).
  exists s'. unfold size. split; [exact Hr|]. split; [exact Hok'|].
  rewrite Hi, Hi1. cbn [length app].
  repeat split; lia.
Qed.

(** Attaching after the last item, with room, writes nothing outside the
    array. *)
Lemma attach_all_after_last_strays : forall xs s,
  rep_ok s -> 0 < used s -> current_index s = used s - 1 ->
  used s + Z.of_nat (length xs) < capacity s ->
  strays (attach_all junk s xs) = [].
Proof.
  induction xs as [|x xs IH]; intros s Hok Hpos Hc Hroom; cbn [attach_all];
    [reflexivity|].
  cbn [length] in Hroom.
  assert (Hitem : is_item s = true) by (apply is_item_true; lia).
  assert (Hg : grown_capacity s = capacity s).
  { unfold grown_capacity.
    destruct (Z.eqb_spec (used s) (capacity s)); [lia | reflexivity]. }
  destruct (attach_room junk s x Hok ltac:(intros _; lia))
    as (s1 & Hr1 & Hok1 & Hi1 & Hc1 & Hu1 & Hk1).
  assert (Ha : attach_index s = used s).
  { unfold attach_index. rewrite Hitem. lia. }
  rewrite (strays_bind_Done _ _ s1 Hr1).
  rewrite (attach_strays junk s x Hok), Hitem, Hg. cbn [andb].
  replace (used s + 1 =? capacity s) with false
    by (symmetry; apply Z.eqb_neq; lia).
  cbn [app]. apply IH; try assumption; lia.
Qed.

(** Attaching after the last item a row that fills the array: every
    [attach] returns, and the last one starts its shift outside the
    array. *)
Lemma attach_all_fill : forall xs s,
  rep_ok s -> 0 < used s -> current_index s = used s - 1 ->
  xs <> [] -> used s + Z.of_nat (length xs) = capacity s ->
  exists s', result (attach_all junk s xs) = Done s' /\ rep_ok s' /\
    items s' = items s ++ xs /\
    used s' = capacity s /\ capacity s' = capacity s /\
    current_index s' = used s' - 1 /\
    strays (attach_all junk s xs) = [capacity s].
Proof.
  induction xs as [|x xs IH]; intros s Hok Hpos Hc Hne Hfill;
    [congruence|].
  cbn [attach_all]. cbn [length] in Hfill.
  assert (Hitem : is_item s = true) by (apply is_item_true; lia).
  assert (Hg : grown_capacity s = capacity s).
  { unfold grown_capacity.
    destruct (Z.eqb_spec (used s) (capacity s)); [lia | reflexivity]. }
  assert (Ha : attach_index s = used s).
  { unfold attach_index. rewrite Hitem. lia. }
  pose proof (length_items s Hok) as Hlen.
  destruct (attach_Done junk s x Hok)
    as (s1 & Hr1 & Hok1 & Hi1 & Hc1 & Hu1 & Hk1).
  rewrite Ha, take_ge, drop_ge in Hi1 by lia.
  rewrite (result_bind_Done _ _ s1 Hr1), (strays_bind_Done _ _ s1 Hr1).
  rewrite (attach_strays junk s x Hok), Hitem, Hg. cbn [andb].
  destruct xs as [|y xs].
  - cbn [length] in Hfill. cbn [attach_all].
    replace (used s + 1 =? capacity s) with true
      by (symmetry; apply Z.eqb_eq; lia).
    exists s1. split; [reflexivity|]. split; [exact Hok1|].
    cbn [strays ret]. rewrite app_nil_r.
    repeat split; try assumption; try lia.
    f_equal. lia.
  - cbn [length] in Hfill.
    replace (used s + 1 =? capacity s) with false
      by (symmetry; apply Z.eqb_neq; lia).
    destruct (IH s1 Hok1 ltac:(lia) ltac:(lia) ltac:(discriminate)
                ltac:(cbn [length]; lia))
      as (s' & Hr & Hok' & Hi & Hu & Hk & Hc' & Hs).
    exists s'. split; [exact Hr|]. split; [exact Hok'|].
    rewrite Hi, Hi1, <- app_assoc. cbn [app].
    rewrite Hs.
    repeat split; try assumption; try lia.
    f_equal. lia.
Qed.

(** X15.  Attaching, one after the other, as many items as a new sequence
    of [n >= 2] cells has cells returns a full sequence of exactly these
    items; the array is not grown (it is not full before the last
    [attach]), and the last [attach] makes the one write of the whole row
    that falls outside the array, to [data[n]]. *)
Theorem attach_all_to_capacity n xs :
  2 <= n -> Z.of_nat (length xs) = n ->
  exists s', result (attach_all junk (construct junk n) xs) = Done s' /\
    rep_ok s' /\ items s' = xs /\
    size s' = n /\ capacity s' = n /\
    strays (attach_all junk (construct junk n) xs) = [n].
Proof.
  intros Hn Hlen. destruct xs as [|x xs]; [cbn in Hlen; lia|].
  cbn [length] in Hlen. cbn [attach_all].
  destruct (attach_first n x) as (s1 & Hr1 & Hok1 & Hi1 & Hu1 & Hc1 & Hk1).
  rewrite (result_bind_Done _ _ s1 Hr1), (strays_bind_Done _ _ s1 Hr1).
  rewrite (attach_strays junk _ x (rep_ok_construct junk n)).
  change (is_item (construct junk n)) with false. cbn [andb app].
  destruct (attach_all_fill xs s1 Hok1)
    as (s' & Hr & Hok' & Hi & Hu & Hk & _ & Hs); try lia.
  { destruct xs; [cbn in Hlen; lia | discriminate]. }
  exists s'. unfold size. split; [exact Hr|]. split; [exact Hok'|].
  rewrite Hi, Hi1, Hs. cbn [app].
  repeat split; try lia. f_equal. lia.
Qed.

(** Removing at the front, [n] times, a sequence of [n] items. *)
Lemma remove_n_front : forall (n : nat) s,
  rep_ok s -> current_index s = 0 -> used s = Z.of_nat n ->
  exists s', result (remove_n n s) = Done s' /\ rep_ok s' /\
    used s' = 0 /\ current_index s' = 0 /\ capacity s' = capacity s.
Proof.
  induction n as [|n IH]; intros s Hok Hc Hu; cbn [remove_n].
  - exists s. repeat split; try apply Hok; assumption.
  - assert (Hitem : is_item s = true) by (apply is_item_true; lia).
    destruct (remove_current_Done s Hok Hitem)
      as (s1 & Hr1 & Hok1 & _ & Hc1 & Hu1 & Hk1).
    rewrite (result_bind_Done _ _ s1 Hr1).
    destruct (IH s1 Hok1 ltac:(lia) ltac:(lia))
      as (s' & Hr & Hok' & Hu' & Hc' & Hk').
    exists s'. split; [exact Hr|]. split; [exact Hok'|].
    repeat split; lia.
Qed.

(** X16.  [start()] followed by [used] calls of [remove_current] returns
    and leaves an empty sequence, without a current item and with the
    capacity it had: [remove_current] never gives cells back. *)
Theorem remove_all_from_start s :
  rep_ok s ->
  exists s', result (remove_n (Z.to_nat (used s)) (start s)) = Done s' /\
    rep_ok s' /\ size s' = 0 /\ items s' = [] /\
    is_item s' = false /\ capacity s' = capacity s.
Proof.
  intros Hok. pose proof (rep_ok_start s Hok) as Hok0.
  destruct (remove_n_front (Z.to_nat (used s)) (start s) Hok0 eq_refl)
    as (s' & Hr & Hok' & Hu & Hc & Hk).
  { destruct Hok as (? & ?). cbn. lia. }
  exists s'. unfold size, items.
  split; [exact Hr|]. split; [exact Hok'|].
  rewrite Hu. cbn [Z.to_nat]. rewrite take_0.
  repeat split; try assumption.
  apply is_item_false. lia.
Qed.

End Rows.

(** ** The further properties on the sample objects *)

Lemma rep_ok_two_of_4 : rep_ok two_of_4.
Proof. unfold rep_ok; cbn; lia. Defined.

Lemma rep_ok_fresh_1 : rep_ok fresh_1.
Proof. apply rep_ok_construct. Defined.

Lemma rep_ok_full_1 : rep_ok full_1.
Proof. unfold rep_ok; cbn; lia. Defined.

Lemma resize_spec_witness :
  rep_ok three_of_4 /\
  exists s', result (resize 0 three_of_4 2) = Done s' /\
             capacity s' = 3 /\ items s' = [5; 7; 9].
Proof.
  split; [exact rep_ok_three_of_4|].
  destruct (resize_spec 0 three_of_4 2 rep_ok_three_of_4)
    as (s' & Hr & _ & Hk & _ & _ & Hi & _).
  exists s'. rewrite Hr. repeat split; assumption.
Defined.

Lemma resize_resize_witness :
  rep_ok three_of_4 /\
  result (let* s1 := resize 0 three_of_4 10 in resize 0 s1 2)
  = result (resize 0 three_of_4 2).
Proof.
  split; [exact rep_ok_three_of_4|].
  apply (resize_resize 0 three_of_4 10 2 rep_ok_three_of_4).
Defined.

Lemma copy_construct_spec_witness :
  rep_ok three_of_4 /\
  exists s', result (copy_construct 0 three_of_4) = Done s' /\
             data s' = [5; 7; 9; 0] /\ current_index s' = 1 /\
             capacity s' = 4.
Proof.
  split; [exact rep_ok_three_of_4|].
  destruct (copy_construct_spec 0 three_of_4 rep_ok_three_of_4)
    as (s' & Hr & _ & Hd & _ & Hc & Hk & _).
  exists s'. rewrite Hr. repeat split; assumption.
Defined.

Lemma assign_spec_witness :
  rep_ok three_of_4 /\
  exists s', result (assign 0 fresh_1 (Other three_of_4)) = Done s' /\
             items s' = [5; 7; 9] /\ capacity s' = 4.
Proof.
  split; [exact rep_ok_three_of_4|].
  destruct (assign_spec 0 fresh_1) as (_ & Hother).
  destruct (Hother three_of_4 rep_ok_three_of_4)
    as (s' & Hr & _ & Hi & _ & _ & Hk & _).
  exists s'. rewrite Hr. repeat split; assumption.
Defined.

Lemma size_counts_items_witness :
  rep_ok three_of_4 /\ size three_of_4 = Z.of_nat (length [5; 7; 9]).
Proof.
  split; [exact rep_ok_three_of_4|].
  apply (size_counts_items three_of_4 rep_ok_three_of_4).
Defined.

Lemma start_current_first_witness :
  (rep_ok three_of_4 /\ 0 < size three_of_4 /\
   exists v, current (start three_of_4) = ret v /\
             items three_of_4 !! 0%nat = Some v) /\
  (rep_ok fresh_1 /\ size fresh_1 = 0 /\ is_item (start fresh_1) = false).
Proof.
  assert (Hpos : 0 < size three_of_4) by (cbn; lia).
  assert (Hzero : size fresh_1 = 0) by reflexivity.
  split.
  - split; [exact rep_ok_three_of_4|]. split; [exact Hpos|].
    destruct (start_current_first three_of_4 rep_ok_three_of_4)
      as (Hfirst & _).
    apply (Hfirst Hpos).
  - split; [exact rep_ok_fresh_1|]. split; [exact Hzero|].
    destruct (start_current_first fresh_1 rep_ok_fresh_1) as (_ & Hempty).
    apply (Hempty Hzero).
Defined.

Lemma insert_stray_write_witness :
  (rep_ok two_of_4 /\ strays (insert 0 two_of_4 7) = []) /\
  (rep_ok three_of_4 /\ strays (insert 0 three_of_4 1) = [4] /\
   4 ∈ writes (insert 0 three_of_4 1)).
Proof.
  split.
  - split; [exact rep_ok_two_of_4|].
    destruct (insert_stray_write 0 two_of_4 7 rep_ok_two_of_4)
      as (_ & Hs & _).
    exact Hs.
  - split; [exact rep_ok_three_of_4|].
    destruct (insert_stray_write 0 three_of_4 1 rep_ok_three_of_4)
      as (Hw & Hs & _).
    split; [exact Hs | exact Hw].
Defined.

Lemma attach_stray_write_witness :
  (rep_ok two_of_4 /\ strays (attach 0 two_of_4 11) = []) /\
  (rep_ok three_of_4 /\ is_item three_of_4 = true /\
   strays (attach 0 three_of_4 1) = [4] /\
   4 ∈ writes (attach 0 three_of_4 1)).
Proof.
  split.
  - split; [exact rep_ok_two_of_4|].
    destruct (attach_stray_write 0 two_of_4 11 rep_ok_two_of_4)
      as (_ & Hs & _).
    exact Hs.
  - split; [exact rep_ok_three_of_4|]. split; [reflexivity|].
    destruct (attach_stray_write 0 three_of_4 1 rep_ok_three_of_4)
      as (Hw & Hs & _).
    split; [exact Hs | exact (Hw eq_refl)].
Defined.

Lemma insert_full_stray_write_witness :
  (rep_ok full_4 /\ used full_4 = capacity full_4 /\
   strays (insert 0 full_4 1) = []) /\
  (rep_ok full_1 /\ used full_1 = capacity full_1 /\
   strays (insert 0 full_1 5) = [2]).
Proof.
  split.
  - split; [exact rep_ok_full_4|]. split; [reflexivity|].
    apply (insert_full_stray_write 0 full_4 1 rep_ok_full_4 eq_refl).
    cbn. lia.
  - split; [exact rep_ok_full_1|]. split; [reflexivity|].
    apply (insert_full_stray_write 0 full_1 5 rep_ok_full_1 eq_refl).
    cbn. lia.
Defined.

Lemma insert_remove_current_witness :
  rep_ok two_of_4 /\ used two_of_4 + 1 < grown_capacity two_of_4 /\
  exists s'',
    result (let* s' := insert 0 two_of_4 7 in remove_current s') = Done s'' /\
    items s'' = [5; 9] /\ current_index s'' = 1.
Proof.
  assert (Hroom : used two_of_4 + 1 < grown_capacity two_of_4)
    by (cbn; lia).
  split; [exact rep_ok_two_of_4|]. split; [exact Hroom|].
  destruct (insert_remove_current 0 two_of_4 7 rep_ok_two_of_4 Hroom)
    as (s'' & Hr & _ & Hi & _ & Hc & _).
  exists s''. repeat split; assumption.
Defined.


Lemma remove_current_writes_witness :
  rep_ok three_of_4 /\ is_item three_of_4 = true /\
  writes (remove_current three_of_4) = seqZ 1 1.
Proof.
  split; [exact rep_ok_three_of_4|]. split; [reflexivity|].
  apply (remove_current_writes three_of_4 rep_ok_three_of_4 eq_refl).
Defined.

Lemma attach_all_below_capacity_witness :
  [5; 7; 9] <> [] /\ Z.of_nat (length [5; 7; 9]) < 4 /\
  exists s', result (attach_all 0 (construct 0 4) [5; 7; 9]) = Done s' /\
             items s' = [5; 7; 9] /\ capacity s' = 4.
Proof.
  assert (Hne : [5; 7; 9] <> ([] : list Z)) by discriminate.
  assert (Hlen : Z.of_nat (length [5; 7; 9]) < 4) by (cbn; lia).
  split; [exact Hne|]. split; [exact Hlen|].
  destruct (attach_all_below_capacity 0 4 [5; 7; 9] Hne Hlen)
    as (s' & Hr & _ & Hi & _ & _ & Hk).
  exists s'. repeat split; assumption.
Defined.

Lemma attach_all_to_capacity_witness :
  2 <= 2 /\ Z.of_nat (length [5; 7]) = 2 /\
  exists s', result (attach_all 0 (construct 0 2) [5; 7]) = Done s' /\
             items s' = [5; 7] /\ size s' = 2 /\ capacity s' = 2 /\
             strays (attach_all 0 (construct 0 2) [5; 7]) = [2].
Proof.
  assert (Hn : 2 <= 2) by lia.
  assert (Hlen : Z.of_nat (length [5; 7]) = 2) by reflexivity.
  split; [exact Hn|]. split; [exact Hlen|].
  destruct (attach_all_to_capacity 0 2 [5; 7] Hn Hlen)
    as (s' & Hr & _ & Hi & Hs & Hk & Hst).
  exists s'. repeat split; assumption.
Defined.

Lemma remove_all_from_start_witness :
  rep_ok three_of_4 /\
  exists s', result (remove_n 3 (start three_of_4)) = Done s' /\
             size s' = 0 /\ items s' = [] /\ capacity s' = 4.
Proof.
  split; [exact rep_ok_three_of_4|].
  destruct (remove_all_from_start three_of_4 rep_ok_three_of_4)
    as (s' & Hr & _ & Hs & Hi & _ & Hk).
  exists s'. repeat split; assumption.
Defined.
